(** * Smart Pantry: a shallow embedding of [src/app.js]

    The application keeps a list of pantry items in memory, mirrors it
    into [localStorage] as JSON, and derives three views from it: items
    that expire soon, items to restock, and recipe suggestions.  The
    event handlers attached by [render] mutate the list and save it.

    This file embeds the state, the derivations and the handlers as
    functions, together with the pieces of the JavaScript runtime they
    call ([String.prototype.toLowerCase], [trim], [parseInt], [Date],
    [JSON], property lookup on an object literal), and proves the
    properties the specification states about them.

    Conventions of the embedding:
    - a JavaScript string is a [string]: a sequence of code units below
      256 (the Latin-1 range);
    - a JavaScript number that holds an integer is a [Z]; [NaN] is [None]
      in an [option Z]; the subtraction of the handlers rounds as the
      doubles do; a price is a rational ([Q]), written as the
      decimal literal of the source, and these compare as the doubles
      they denote do;
    - an array is a [list]; [Array.prototype.find] is [list_find], which
      also returns the index, so that a mutation of the found object is
      an update of the list at that index.  Every object of the inventory
      array is fresh (made by an object literal in the add handler or by
      [JSON.parse]), so no two slots alias;
    - a call that can throw returns a [completion]. *)

From stdpp Require Import base numbers list strings gmap.
From Stdlib Require Import Ascii QArith.

Local Open Scope string_scope.

(** ** Completions *)

Inductive error := TypeError | SyntaxError.

Inductive completion (A : Type) :=
| Normal (a : A)
| Throw (e : error).
Arguments Normal {A} a.
Arguments Throw {A} e.

(** ** Strings of the runtime *)

Module JSString.

Definition code (c : ascii) : N := N_of_ascii c.

(** [toLowerCase] on one code unit below 256: the capital letters of
    ASCII and of Latin-1 (U+00C0 to U+00DE, without the multiplication
    sign U+00D7) move up by 32, every other unit is kept. *)
Definition toLowerCode (n : N) : N :=
  (if ((65 <=? n) && (n <=? 90))
      || ((192 <=? n) && (n <=? 222) && negb (n =? 215))
   then n + 32 else n)%N.

Definition toLowerChar (c : ascii) : ascii :=
  ascii_of_N (toLowerCode (code c)).

Fixpoint toLowerCase (s : string) : string :=
  match s with
  | EmptyString => EmptyString
  | String c s' => String (toLowerChar c) (toLowerCase s')
  end.

(** White space and line terminators below 256, as [trim] and
    [parseInt] strip them: TAB, LF, VT, FF, CR, SP, NBSP. *)
Definition isWhiteSpace (c : ascii) : bool :=
  let n := code c in
  (((9 <=? n) && (n <=? 13)) || (n =? 32) || (n =? 160))%N.

Fixpoint trimStart (s : string) : string :=
  match s with
  | String c s' => if isWhiteSpace c then trimStart s' else s
  | EmptyString => EmptyString
  end.

(** [trimEnd] drops the white space after the last other character. *)
Fixpoint trimEnd (s : string) : string :=
  match s with
  | EmptyString => EmptyString
  | String c s' =>
      match trimEnd s' with
      | EmptyString => if isWhiteSpace c then EmptyString
                       else String c EmptyString
      | t => String c t
      end
  end.

Definition trim (s : string) : string := trimEnd (trimStart s).

Definition isDigit (c : ascii) : bool :=
  let n := code c in ((48 <=? n) && (n <=? 57))%N.

Definition digitValue (c : ascii) : Z := (Z.of_N (code c) - 48)%Z.

(** The longest prefix of decimal digits, read as a number with [acc]
    in front, and how many digits were read. *)
Fixpoint readDigits (s : string) (acc : Z) (count : nat)
  : Z * nat * string :=
  match s with
  | String c s' =>
      if isDigit c then readDigits s' (10 * acc + digitValue c)%Z (S count)
      else (acc, count, s)
  | EmptyString => (acc, count, s)
  end.

(** [parseInt(s, 10)]: leading white space is skipped, one sign is
    accepted, then the longest run of digits is read; [None] is [NaN]
    (no digit). *)
Definition parseInt (s : string) : option Z :=
  let s1 := trimStart s in
  let '(sign, s2) :=
    match s1 with
    | String "-" r => ((-1)%Z, r)
    | String "+" r => (1%Z, r)
    | _ => (1%Z, s1)
    end in
  match readDigits s2 0%Z 0%nat with
  | (_, O, _) => None
  | (n, _, _) => Some (sign * n)%Z
  end.

(** Truthiness of a string: every string but the empty one. *)
Definition truthy (s : string) : bool :=
  match s with EmptyString => false | _ => true end.

End JSString.

Import JSString.

(** ** Dates of the runtime

    A [Date] object holds a time value: milliseconds since the epoch, or
    [NaN] for an invalid date ([None] here).  The functions below are the
    abstract operations of the language definition that [getFullYear],
    [getMonth], [getDate], [Date.UTC] and the [Date] constructor are made
    of.  The offset of local time is a parameter [LocalTZA], a function of
    the time value, in milliseconds. *)

Module JSDate.

Local Open Scope Z_scope.

Definition msPerDay : Z := 1000 * 60 * 60 * 24.

Definition Day (t : Z) : Z := t / msPerDay.

Definition DayFromYear (y : Z) : Z :=
  365 * (y - 1970) + (y - 1969) / 4 - (y - 1901) / 100 + (y - 1601) / 400.

Definition DaysInYear (y : Z) : Z :=
  if negb (y mod 4 =? 0) then 365
  else if negb (y mod 100 =? 0) then 366
  else if negb (y mod 400 =? 0) then 365
  else 366.

(** The largest [y] with [DayFromYear y <= d]: an estimate from the mean
    length of a year, corrected by one in either direction. *)
Definition YearFromDay (d : Z) : Z :=
  let y := 1970 + (400 * d) / 146097 in
  if DayFromYear (y + 1) <=? d then y + 1
  else if DayFromYear y <=? d then y
  else y - 1.

Definition YearFromTime (t : Z) : Z := YearFromDay (Day t).

Definition DayWithinYear (t : Z) : Z := Day t - DayFromYear (YearFromTime t).

Definition InLeapYear (t : Z) : Z :=
  if DaysInYear (YearFromTime t) =? 366 then 1 else 0.

Definition MonthFromTime (t : Z) : Z :=
  let d := DayWithinYear t in
  let L := InLeapYear t in
  if d <? 31 then 0
  else if d <? 59 + L then 1
  else if d <? 90 + L then 2
  else if d <? 120 + L then 3
  else if d <? 151 + L then 4
  else if d <? 181 + L then 5
  else if d <? 212 + L then 6
  else if d <? 243 + L then 7
  else if d <? 273 + L then 8
  else if d <? 304 + L then 9
  else if d <? 334 + L then 10
  else 11.

(** Days of the year before the first of month [m] (0 to 11). *)
Definition DaysBeforeMonth (m L : Z) : Z :=
  match m with
  | 0 => 0
  | 1 => 31
  | 2 => 59 + L
  | 3 => 90 + L
  | 4 => 120 + L
  | 5 => 151 + L
  | 6 => 181 + L
  | 7 => 212 + L
  | 8 => 243 + L
  | 9 => 273 + L
  | 10 => 304 + L
  | _ => 334 + L
  end.

Definition DateFromTime (t : Z) : Z :=
  DayWithinYear t - DaysBeforeMonth (MonthFromTime t) (InLeapYear t) + 1.

(** [MakeDay]: the day number of the first of the month, plus
    [date - 1]. *)
Definition MakeDay (year month date : Z) : Z :=
  let ym := year + month / 12 in
  let mn := month mod 12 in
  let L := if DaysInYear ym =? 366 then 1 else 0 in
  DayFromYear ym + DaysBeforeMonth mn L + date - 1.

Definition MakeDate (day time : Z) : Z := day * msPerDay + time.

Definition TimeClip (t : Z) : option Z :=
  if Z.abs t <=? 8640000000000000 then Some t else None.

(** [Date.UTC(year, month, date)]; a [NaN] argument gives [NaN], and a
    year from 0 to 99 stands for 1900 + year. *)
Definition UTC (year month date : option Z) : option Z :=
  match year, month, date with
  | Some y, Some m, Some dt =>
      let yr := if (0 <=? y) && (y <=? 99) then 1900 + y else y in
      TimeClip (MakeDate (MakeDay yr m dt) 0)
  | _, _, _ => None
  end.

Section LocalTime.

Variable LocalTZA : Z -> Z.

Definition LocalTime (t : Z) : Z := t + LocalTZA t.

Definition getFullYear (d : option Z) : option Z :=
  match d with Some t => Some (YearFromTime (LocalTime t)) | None => None end.

Definition getMonth (d : option Z) : option Z :=
  match d with Some t => Some (MonthFromTime (LocalTime t)) | None => None end.

Definition getDate (d : option Z) : option Z :=
  match d with Some t => Some (DateFromTime (LocalTime t)) | None => None end.

End LocalTime.

Definition twoDigits (a b : ascii) : option Z :=
  if isDigit a && isDigit b then Some (10 * digitValue a + digitValue b)
  else None.

(** [new Date(s)] for the date-only form [YYYY-MM-DD], which is what a
    date input holds: midnight of that day in UTC.  A month outside 1
    to 12 or a day the month does not have gives an invalid date, as
    does any other form (forms with a time, and what an engine accepts
    beyond the standard format, are not modelled). *)
Definition parse (s : string) : option Z :=
  match s with
  | String y1 (String y2 (String y3 (String y4 (String sep1
      (String m1 (String m2 (String sep2
        (String d1 (String d2 EmptyString))))))))) =>
      match twoDigits y1 y2, twoDigits y3 y4, twoDigits m1 m2, twoDigits d1 d2 with
      | Some yh, Some yl, Some m, Some d =>
          let y := 100 * yh + yl in
          let t := MakeDate (MakeDay y (m - 1) d) 0 in
          if Ascii.eqb sep1 "-" && Ascii.eqb sep2 "-"
             && (1 <=? m) && (m <=? 12) && (1 <=? d) && (DateFromTime t =? d)
             && (MonthFromTime t =? m - 1)
          then TimeClip t else None
      | _, _, _, _ => None
      end
  | _ => None
  end.

End JSDate.

(** ** JSON of the runtime

    [JSON.parse] is a recursive-descent reader of the JSON grammar into
    [value]s; it runs on fuel, and [parse] gives it more fuel than the
    text has characters.  An object is the list of its properties in
    insertion order.  Numbers are kept exact: rounding to a double is not
    modelled, and on integers below 2^53 there is none.  A [\u] escape of
    a code unit above 255 is outside the strings of this embedding and is
    refused. *)

Module JSON.

#[local] Unset Elimination Schemes.
Inductive value :=
| JNull
| JBool (b : bool)
| JNumber (q : Q)
| JString (s : string)
| JArray (elements : list value)
| JObject (properties : list (string * value)).
#[local] Set Elimination Schemes.

Definition dquote : ascii := ascii_of_N 34.
Definition backslash : ascii := ascii_of_N 92.

(** *** Writing *)

Definition hexDigit (n : N) : ascii :=
  ascii_of_N (if (n <? 10)%N then 48 + n else 87 + n)%N.

(** [QuoteJSONString], one code unit at a time. *)
Definition quoteChar (c : ascii) : string :=
  match code c with
  | 8%N => "\b"
  | 9%N => "\t"
  | 10%N => "\n"
  | 12%N => "\f"
  | 13%N => "\r"
  | 34%N => String backslash (String dquote EmptyString)
  | 92%N => String backslash (String backslash EmptyString)
  | n =>
      if (n <? 32)%N
      then "\u00" ++ String (hexDigit (n / 16)) (String (hexDigit (n mod 16)) EmptyString)
      else String c EmptyString
  end.

Fixpoint quoteChars (s : string) : string :=
  match s with
  | EmptyString => EmptyString
  | String c s' => quoteChar c ++ quoteChars s'
  end.

Definition quoteJSONString (s : string) : string :=
  String dquote (quoteChars s ++ String dquote EmptyString).

(** The character of a digit from 0 to 9. *)
Definition digitChar (d : Z) : ascii := ascii_of_N (48 + Z.to_N d).

(** The decimal digits of [n >= 0] in front of [tail]; [fuel] bounds the
    number of digits. *)
Fixpoint digitsOf (fuel : nat) (n : Z) (tail : string) : string :=
  match fuel with
  | O => String (digitChar n) tail
  | S fuel' =>
      if (n <? 10)%Z then String (digitChar n) tail
      else digitsOf fuel' (n / 10)%Z (String (digitChar (n mod 10)%Z) tail)
  end.

(** [Number::toString] of an integer, in decimal digits (JavaScript
    switches to an exponent from 10^21 on, far above the integers a
    double holds exactly). *)
Definition integerToString (z : Z) : string :=
  let digits (n : Z) := digitsOf (Z.to_nat (Z.log2 n)) n EmptyString in
  if (z <? 0)%Z then String "-" (digits (- z)%Z) else digits z.

(** *** Reading *)

Definition isJSONSpace (c : ascii) : bool :=
  match code c with
  | 9%N | 10%N | 13%N | 32%N => true
  | _ => false
  end.

Fixpoint skipSpace (s : string) : string :=
  match s with
  | String c s' => if isJSONSpace c then skipSpace s' else s
  | EmptyString => EmptyString
  end.

Definition hexValue (c : ascii) : option N :=
  let n := code c in
  if ((48 <=? n) && (n <=? 57))%N then Some (n - 48)%N
  else if ((97 <=? n) && (n <=? 102))%N then Some (n - 87)%N
  else if ((65 <=? n) && (n <=? 70))%N then Some (n - 55)%N
  else None.

Definition unescape (c : ascii) : option ascii :=
  match code c with
  | 34%N => Some dquote
  | 92%N => Some backslash
  | 47%N => Some "/"%char
  | 98%N => Some (ascii_of_N 8)
  | 102%N => Some (ascii_of_N 12)
  | 110%N => Some (ascii_of_N 10)
  | 114%N => Some (ascii_of_N 13)
  | 116%N => Some (ascii_of_N 9)
  | _ => None
  end.

(** The characters of a string up to its closing quote. *)
Fixpoint readString (s : string) : option (string * string) :=
  match s with
  | EmptyString => None
  | String c r =>
      if (code c =? 34)%N then Some (EmptyString, r)
      else if (code c =? 92)%N then
        match r with
        | String "u" (String h1 (String h2 (String h3 (String h4 r')))) =>
            match hexValue h1, hexValue h2, hexValue h3, hexValue h4 with
            | Some 0%N, Some 0%N, Some a, Some b =>
                match readString r' with
                | Some (t, rest) => Some (String (ascii_of_N (16 * a + b)) t, rest)
                | None => None
                end
            | _, _, _, _ => None
            end
        | String e r' =>
            match unescape e with
            | Some c' =>
                match readString r' with
                | Some (t, rest) => Some (String c' t, rest)
                | None => None
                end
            | None => None
            end
        | EmptyString => None
        end
      else if (code c <? 32)%N then None
      else
        match readString r with
        | Some (t, rest) => Some (String c t, rest)
        | None => None
        end
  end.

(** The digits of an integer part: a single 0, or a run of digits that
    does not start with 0. *)
Definition readInt (s : string) : option (Z * string) :=
  match s with
  | String "0" r => Some (0%Z, r)
  | _ =>
      match readDigits s 0%Z 0%nat with
      | (_, O, _) => None
      | (n, _, r) => Some (n, r)
      end
  end.

Definition readFraction (s : string) : option (option (Z * nat) * string) :=
  match s with
  | String "." r =>
      match readDigits r 0%Z 0%nat with
      | (_, O, _) => None
      | (n, k, r') => Some (Some (n, k), r')
      end
  | _ => Some (None, s)
  end.

Definition readExponent (s : string) : option (option Z * string) :=
  let digits (sign : Z) (r : string) :=
    match readDigits r 0%Z 0%nat with
    | (_, O, _) => None
    | (n, _, r') => Some (Some (sign * n)%Z, r')
    end in
  match s with
  | String c r =>
      if ((code c =? 101) || (code c =? 69))%N then
        match r with
        | String "-" r' => digits (-1)%Z r'
        | String "+" r' => digits 1%Z r'
        | _ => digits 1%Z r
        end
      else Some (None, s)
  | EmptyString => Some (None, s)
  end.

Definition pow10 (e : Z) : Q :=
  if (0 <=? e)%Z then inject_Z (10 ^ e) else / inject_Z (10 ^ (- e)).

(** A number without its sign: integer part, optional fraction,
    optional exponent. *)
Definition readUnsigned (sign : Z) (s : string) : option (Q * string) :=
  match readInt s with
  | None => None
  | Some (i, s2) =>
      match readFraction s2 with
      | None => None
      | Some (f, s3) =>
          match readExponent s3 with
          | None => None
          | Some (e, s4) =>
              match f, e with
              | None, None => Some (inject_Z (sign * i), s4)
              | _, _ =>
                  let frac :=
                    match f with
                    | Some (n, k) => (inject_Z n * pow10 (- Z.of_nat k))%Q
                    | None => 0%Q
                    end in
                  let scale :=
                    match e with Some x => pow10 x | None => 1%Q end in
                  Some (Qred (inject_Z sign * (inject_Z i + frac) * scale), s4)
              end
          end
      end
  end.

Definition readNumber (s : string) : option (Q * string) :=
  match s with
  | String "-" r => readUnsigned (-1) r
  | _ => readUnsigned 1 s
  end.

(** Defining a property: a key that is already there keeps its place
    and takes the new value. *)
Fixpoint setProperty (k : string) (v : value) (l : list (string * value))
  : list (string * value) :=
  match l with
  | [] => [(k, v)]
  | (k', v') :: l' =>
      if String.eqb k k' then (k, v) :: l' else (k', v') :: setProperty k v l'
  end.

(** [s] without the prefix [p], if it starts with it. *)
Fixpoint stripPrefix (p s : string) : option string :=
  match p with
  | EmptyString => Some s
  | String a p' =>
      match s with
      | String b s' => if Ascii.eqb a b then stripPrefix p' s' else None
      | EmptyString => None
      end
  end.

Fixpoint readValue (fuel : nat) (s : string) : option (value * string) :=
  match fuel with
  | O => None
  | S fuel' =>
      match skipSpace s with
      | EmptyString => None
      | String c r =>
          match code c with
          | 34%N =>
              match readString r with
              | Some (t, rest) => Some (JString t, rest)
              | None => None
              end
          | 91%N =>
              match skipSpace r with
              | String "]" rest => Some (JArray [], rest)
              | _ => readElements fuel' r []
              end
          | 123%N =>
              match skipSpace r with
              | String "}" rest => Some (JObject [], rest)
              | _ => readMembers fuel' r []
              end
          | 116%N =>
              match stripPrefix "rue" r with
              | Some rest => Some (JBool true, rest)
              | None => None
              end
          | 102%N =>
              match stripPrefix "alse" r with
              | Some rest => Some (JBool false, rest)
              | None => None
              end
          | 110%N =>
              match stripPrefix "ull" r with
              | Some rest => Some (JNull, rest)
              | None => None
              end
          | _ =>
              match readNumber (String c r) with
              | Some (q, rest) => Some (JNumber q, rest)
              | None => None
              end
          end
      end
  end
with readElements (fuel : nat) (s : string) (acc : list value)
  : option (value * string) :=
  match fuel with
  | O => None
  | S fuel' =>
      match readValue fuel' s with
      | Some (v, r) =>
          match skipSpace r with
          | String "," rest => readElements fuel' rest (acc ++ [v])
          | String "]" rest => Some (JArray (acc ++ [v]), rest)
          | _ => None
          end
      | None => None
      end
  end
with readMembers (fuel : nat) (s : string) (acc : list (string * value))
  : option (value * string) :=
  match fuel with
  | O => None
  | S fuel' =>
      match skipSpace s with
      | String c r =>
          if (code c =? 34)%N then
            match readString r with
            | Some (k, r1) =>
                match skipSpace r1 with
                | String ":" r2 =>
                    match readValue fuel' r2 with
                    | Some (v, r3) =>
                        match skipSpace r3 with
                        | String "," rest =>
                            readMembers fuel' rest (setProperty k v acc)
                        | String "}" rest =>
                            Some (JObject (setProperty k v acc), rest)
                        | _ => None
                        end
                    | None => None
                    end
                | _ => None
                end
            | None => None
            end
          else None
      | EmptyString => None
      end
  end.

(** [JSON.parse]: one value, with nothing but white space after it;
    anything else is a [SyntaxError]. *)
Definition parse (s : string) : completion value :=
  match readValue (S (String.length s)) s with
  | Some (v, rest) =>
      match skipSpace rest with
      | EmptyString => Normal v
      | _ => Throw SyntaxError
      end
  | None => Throw SyntaxError
  end.

End JSON.

(** ** Numbers *)

(** A number is an IEEE 754 double.  The quantities of the inventory are
    whole numbers, and a double that is a whole number is written as the
    integer it is: every integer below [2 ^ 53] in magnitude is one, and
    beyond only those with 53 significant bits are. *)
Module JSNumber.

(** The double nearest to the integer [n], ties to the even significand.
    The overflow to [Infinity], from [2 ^ 1024 - 2 ^ 970] on, is left out:
    a subtraction of 1 from a positive double does not get there. *)
Definition roundTiesToEven (n : Z) : Z :=
  let a := Z.abs n in
  if (a <? 2 ^ 53)%Z then n
  else
    let e := (Z.log2 a - 52)%Z in
    let m := (a / 2 ^ e)%Z in
    let r := (a mod 2 ^ e)%Z in
    let half := (2 ^ (e - 1))%Z in
    let m' := if orb (half <? r)%Z (andb (r =? half)%Z (Z.odd m))
              then (m + 1)%Z else m in
    (Z.sgn n * (m' * 2 ^ e))%Z.

(** [x - y] of two whole numbers. *)
Definition subtract (x y : Z) : Z := roundTiesToEven (x - y).

End JSNumber.

(** ** Data model *)

(** An item of the inventory:
    [{ id, name, quantity, expirationDate, barcode, regular }]. *)
Module Item.
Record t := mk {
  id : string;
  name : string;
  quantity : Z;
  expirationDate : option string;
  barcode : option string;
  regular : bool
}.

#[global] Instance eq_dec : EqDecision t.
Proof. solve_decision. Defined.

(** [item.quantity -= 1], a subtraction of doubles. *)
Definition decrement (item : t) : t :=
  mk (id item) (name item) (JSNumber.subtract (quantity item) 1)
     (expirationDate item)
     (barcode item) (regular item).
End Item.

(** A recipe of the static list.  The instructions are left out: only
    the alert of the View button reads them.  The name of the last
    recipe has a non-breaking hyphen (U+2011), kept here as the bytes of
    the source file; recipe names are only compared for equality. *)
Module Recipe.
Record t := mk {
  name : string;
  ingredients : list string
}.

#[global] Instance eq_dec : EqDecision t.
Proof. solve_decision. Defined.
End Recipe.

Record PriceEntry := { store : string; price : Q }.

Definition recipes : list Recipe.t := [
  Recipe.mk "Spaghetti Marinara"
    ["spaghetti"; "tomato sauce"; "garlic"; "olive oil"];
  Recipe.mk "Peanut Butter Sandwich"
    ["bread"; "peanut butter"; "jelly"];
  Recipe.mk "Omelette"
    ["eggs"; "milk"; "cheese"; "salt"];
  Recipe.mk "Guacamole"
    ["avocado"; "lime"; "salt"; "tomato"; "onion"];
  Recipe.mk "Caprese Salad"
    ["tomato"; "mozzarella"; "basil"; "olive oil"; "salt"];
  Recipe.mk "Fruit Smoothie"
    ["banana"; "milk"; "frozen berries"; "honey"];
  Recipe.mk "Chicken Stir‑Fry"
    ["chicken breast"; "soy sauce"; "vegetables"; "garlic"; "rice"]
].

(** The own properties of the object literal [priceData]. *)
Definition priceData : gmap string (list PriceEntry) :=
  list_to_map [
    ("bread", [ {| store := "Walmart"; price := 1.5 |};
                {| store := "Target"; price := 1.4 |};
                {| store := "Publix"; price := 1.6 |} ]);
    ("milk", [ {| store := "Walmart"; price := 2.0 |};
               {| store := "Target"; price := 2.2 |};
               {| store := "Costco"; price := 1.8 |} ]);
    ("eggs", [ {| store := "Publix"; price := 2.5 |};
               {| store := "Walmart"; price := 2.3 |};
               {| store := "Target"; price := 2.6 |} ]);
    ("tomato sauce", [ {| store := "Publix"; price := 1.8 |};
                       {| store := "Walmart"; price := 1.6 |};
                       {| store := "Target"; price := 1.7 |} ]);
    ("spaghetti", [ {| store := "Publix"; price := 1.2 |};
                    {| store := "Walmart"; price := 1.1 |};
                    {| store := "Target"; price := 1.3 |} ]);
    ("cheese", [ {| store := "Publix"; price := 2.9 |};
                 {| store := "Walmart"; price := 2.7 |};
                 {| store := "Costco"; price := 2.5 |} ]);
    ("bananas", [ {| store := "Publix"; price := 0.5 |};
                  {| store := "Walmart"; price := 0.45 |};
                  {| store := "Costco"; price := 0.4 |} ])
  ].

(** ** The inventory as a JavaScript value, and [JSON.stringify] of it *)

Module Persist.
Import JSON.

Definition optionValue (o : option string) : value :=
  match o with Some s => JString s | None => JNull end.

Definition itemValue (item : Item.t) : value :=
  JObject [
    ("id", JString (Item.id item));
    ("name", JString (Item.name item));
    ("quantity", JNumber (inject_Z (Item.quantity item)));
    ("expirationDate", optionValue (Item.expirationDate item));
    ("barcode", optionValue (Item.barcode item));
    ("regular", JBool (Item.regular item))
  ].

Definition inventoryValue (inventory : list Item.t) : value :=
  JArray (map itemValue inventory).

Definition stringifyOption (o : option string) : string :=
  match o with Some s => quoteJSONString s | None => "null" end.

(** [SerializeJSONObject] of an item: its properties in the order of
    their creation, with no white space. *)
Definition stringifyItem (item : Item.t) : string :=
  "{" ++ quoteJSONString "id" ++ ":" ++ quoteJSONString (Item.id item)
  ++ "," ++ quoteJSONString "name" ++ ":" ++ quoteJSONString (Item.name item)
  ++ "," ++ quoteJSONString "quantity" ++ ":"
         ++ integerToString (Item.quantity item)
  ++ "," ++ quoteJSONString "expirationDate" ++ ":"
         ++ stringifyOption (Item.expirationDate item)
  ++ "," ++ quoteJSONString "barcode" ++ ":"
         ++ stringifyOption (Item.barcode item)
  ++ "," ++ quoteJSONString "regular" ++ ":"
         ++ (if Item.regular item then "true" else "false")
  ++ "}".

(** The elements of an array, separated by commas. *)
Fixpoint stringifyItems (l : list Item.t) : string :=
  match l with
  | [] => EmptyString
  | [item] => stringifyItem item
  | item :: l' => stringifyItem item ++ "," ++ stringifyItems l'
  end.

(** [JSON.stringify(inventory)] *)
Definition stringify (inventory : list Item.t) : string :=
  "[" ++ stringifyItems inventory ++ "]".

(** Reading a value back as a list of items: [None] when the value is
    not an array of objects of the six properties, in their order. *)
Definition optionOfValue (v : value) : option (option string) :=
  match v with
  | JString s => Some (Some s)
  | JNull => Some None
  | _ => None
  end.

Definition itemOfValue (v : value) : option Item.t :=
  match v with
  | JObject [ ("id", JString i); ("name", JString n);
              ("quantity", JNumber (Qmake q 1));
              ("expirationDate", e); ("barcode", b);
              ("regular", JBool r) ] =>
      match optionOfValue e, optionOfValue b with
      | Some e', Some b' => Some (Item.mk i n q e' b' r)
      | _, _ => None
      end
  | _ => None
  end.

Definition itemsOfValue (v : value) : option (list Item.t) :=
  match v with
  | JArray l => mapM itemOfValue l
  | _ => None
  end.

End Persist.

(** ** State of the application *)

(** The in-memory inventory and [localStorage]. *)
Record State := {
  inventory : list Item.t;
  localStorage : gmap string string
}.

(** [saveInventory()] *)
Definition saveInventory (st : State) : State :=
  {| inventory := inventory st;
     localStorage :=
       <["inventory" := Persist.stringify (inventory st)]> (localStorage st) |}.

(** [try { ... } catch (e) { ... }] *)
Definition tryCatch {A} (body : completion A) (handler : error -> completion A)
  : completion A :=
  match body with
  | Normal a => Normal a
  | Throw e => handler e
  end.

(** The start-up block that loads the inventory: the value bound to
    [inventory] when it is done.  [getItem] gives [null] for a missing
    key, and [null] and the empty string are falsy. *)
Definition loadInventory (storage : gmap string string) : completion JSON.value :=
  let inventory := JSON.JArray [] in
  tryCatch
    (match storage !! "inventory" with
     | Some stored =>
         if truthy stored then
           match JSON.parse stored with
           | Normal v => Normal v
           | Throw e => Throw e
           end
         else Normal inventory
     | None => Normal inventory
     end)
    (fun e => (* console.warn *) Normal inventory).

(** ** Derived views *)

(** [daysBetween(start, end)]: the calendar fields are those of local
    time; [Math.floor] of the quotient is the division of [Z]. *)
Definition daysBetween (LocalTZA : Z -> Z) (start end_ : option Z) : option Z :=
  let utcStart :=
    JSDate.UTC (JSDate.getFullYear LocalTZA start)
               (JSDate.getMonth LocalTZA start)
               (JSDate.getDate LocalTZA start) in
  let utcEnd :=
    JSDate.UTC (JSDate.getFullYear LocalTZA end_)
               (JSDate.getMonth LocalTZA end_)
               (JSDate.getDate LocalTZA end_) in
  match utcStart, utcEnd with
  | Some s, Some e => Some ((e - s) / JSDate.msPerDay)%Z
  | _, _ => None
  end.

Record Expiring := { item : Item.t; daysLeft : option Z }.

(** [item.expirationDate] as a condition: neither [null] nor empty. *)
Definition hasExpirationDate (item : Item.t) : Prop :=
  match Item.expirationDate item with
  | Some s => truthy s = true
  | None => False
  end.

#[global] Instance hasExpirationDate_dec item : Decision (hasExpirationDate item).
Proof. unfold hasExpirationDate. destruct (Item.expirationDate item); apply _. Defined.

(** [entry.daysLeft <= 5], false on [NaN]. *)
Definition withinFiveDays (entry : Expiring) : Prop :=
  match daysLeft entry with
  | Some d => (d <= 5)%Z
  | None => False
  end.

#[global] Instance withinFiveDays_dec entry : Decision (withinFiveDays entry).
Proof. unfold withinFiveDays. destruct (daysLeft entry); apply _. Defined.

(** [getSoonExpiringItems()]; [now] is the time value of [new Date()]. *)
Definition getSoonExpiringItems (LocalTZA : Z -> Z) (now : Z)
    (inventory : list Item.t) : list Expiring :=
  filter withinFiveDays
    (map (fun item =>
            let expireDate :=
              match Item.expirationDate item with
              | Some s => JSDate.parse s
              | None => Some 0%Z (* [new Date(null)] is the epoch *)
              end in
            {| item := item;
               daysLeft := daysBetween LocalTZA (Some now) expireDate |})
         (filter hasExpirationDate inventory)).

(** [getRestockItems()] *)
Definition getRestockItems (inventory : list Item.t) : list Item.t :=
  filter (fun item => Item.regular item = true /\ (Item.quantity item <= 0)%Z)
         inventory.

(** [inventory.find((item) => item.name.toLowerCase() ===
    ingredient.toLowerCase())], with the index of what it finds. *)
Definition findByName (ingredient : string) (inventory : list Item.t)
  : option (nat * Item.t) :=
  list_find (fun item => toLowerCase (Item.name item) = toLowerCase ingredient)
            inventory.

(** [!found || found.quantity <= 0] *)
Definition unavailable (found : option (nat * Item.t)) : bool :=
  match found with
  | None => true
  | Some (_, item) => (Item.quantity item <=? 0)%Z
  end.

(** The [missing] array of one recipe: [forEach] over the ingredients,
    pushing the ones that are not available. *)
Definition missingIngredients (inventory : list Item.t) (recipe : Recipe.t)
  : list string :=
  foldl (fun missing ingredient =>
           if unavailable (findByName ingredient inventory)
           then (missing ++ [ingredient])%list else missing)
        [] (Recipe.ingredients recipe).

(** [getRecipeSuggestions()] *)
Definition getRecipeSuggestions (inventory : list Item.t)
  : list (Recipe.t * list string) :=
  map (fun recipe => (recipe, missingIngredients inventory recipe)) recipes.

(** [canCook = missing.length === 0] in [render]; the Cook button is
    disabled when it is false. *)
Definition canCook (missing : list string) : bool :=
  Nat.eqb (length missing) 0.

(** *** Cheapest store *)

(** What a property of [priceData] can evaluate to: one of its own
    arrays, or what it inherits from [Object.prototype]: a function with
    its [length], or the prototype object itself under [__proto__]. *)
Inductive property :=
| PriceList (list : list PriceEntry)
| BuiltinFunction (length : Z)
| PrototypeObject.

Definition ObjectPrototype : list (string * property) := [
  ("constructor", BuiltinFunction 1);
  ("__proto__", PrototypeObject);
  ("hasOwnProperty", BuiltinFunction 1);
  ("isPrototypeOf", BuiltinFunction 1);
  ("propertyIsEnumerable", BuiltinFunction 1);
  ("toLocaleString", BuiltinFunction 0);
  ("toString", BuiltinFunction 0);
  ("valueOf", BuiltinFunction 0);
  ("__defineGetter__", BuiltinFunction 2);
  ("__defineSetter__", BuiltinFunction 2);
  ("__lookupGetter__", BuiltinFunction 1);
  ("__lookupSetter__", BuiltinFunction 1)
].

Fixpoint lookupProperty {A} (key : string) (l : list (string * A)) : option A :=
  match l with
  | [] => None
  | (k, v) :: l' => if String.eqb key k then Some v else lookupProperty key l'
  end.

(** [priceData[key]]: an own property, else one of the prototype, else
    [undefined]. *)
Definition getProperty (key : string) : option property :=
  match priceData !! key with
  | Some list => Some (PriceList list)
  | None => lookupProperty key ObjectPrototype
  end.

(** The scan of [getCheapestStoreFor] over a list that has a first
    entry. *)
Definition cheapestOf (first : PriceEntry) (list : list PriceEntry) : PriceEntry :=
  foldl (fun cheapest entry =>
           if Qlt_le_dec (price entry) (price cheapest) then entry else cheapest)
        first list.

(** [getCheapestStoreFor(itemName)].  On a value that is not an array,
    [list[0]] is [undefined] and [list.forEach] is not a function: the
    call throws. *)
Definition getCheapestStoreFor (itemName : string)
  : completion (option PriceEntry) :=
  match getProperty (toLowerCase itemName) with
  | None => Normal None
  | Some (PriceList []) => Normal None
  | Some (PriceList (first :: rest)) =>
      Normal (Some (cheapestOf first (first :: rest)))
  | Some (BuiltinFunction length) =>
      if (length =? 0)%Z then Normal None else Throw TypeError
  | Some PrototypeObject => Throw TypeError
  end.

(** ** Event handlers *)

(** The fields of the add form as [FormData] gives them; the check box
    is absent ([null]) unless it is ticked. *)
Record AddForm := {
  formName : string;
  formQuantity : string;
  formExpirationDate : string;
  formRegular : option string
}.

(** Submission of the add form; [newId] is what [generateId()] returns. *)
Definition addSubmit (form : AddForm) (newId : string) (st : State) : State :=
  let name := trim (formName form) in
  let quantity :=
    match parseInt (formQuantity form) with
    | Some n => n
    | None => 0%Z
    end in
  let expirationDate := formExpirationDate form in
  let regular := bool_decide (formRegular form = Some "on") in
  if negb (truthy name) then st
  else
    saveInventory
      {| inventory :=
           (inventory st ++
            [ Item.mk newId name quantity
                (if truthy expirationDate then Some expirationDate else None)
                None regular ])%list;
         localStorage := localStorage st |}.

(** The Use button of the row with [data-id = id]. *)
Definition useClick (id : string) (st : State) : State :=
  match list_find (fun itm => Item.id itm = id) (inventory st) with
  | Some (i, item) =>
      saveInventory
        {| inventory :=
             if (0 <? Item.quantity item)%Z
             then <[i := Item.decrement item]> (inventory st)
             else inventory st;
           localStorage := localStorage st |}
  | None => st
  end.

(** The Delete button of the row with [data-id = id]. *)
Definition deleteClick (id : string) (st : State) : State :=
  saveInventory
    {| inventory := filter (fun itm => Item.id itm <> id) (inventory st);
       localStorage := localStorage st |}.

(** One step of the loop of the Cook handler:
    [if (item && item.quantity > 0) item.quantity -= 1]. *)
Definition deduct (inventory : list Item.t) (ing : string) : list Item.t :=
  match findByName ing inventory with
  | Some (i, item) =>
      if (0 <? Item.quantity item)%Z
      then <[i := Item.decrement item]> inventory
      else inventory
  | None => inventory
  end.

(** The click handler of a Cook button with [data-name = recipeName]. *)
Definition cookHandler (recipeName : string) (st : State) : State :=
  match list_find (fun r => Recipe.name r = recipeName) recipes with
  | None => st
  | Some (_, recipe) =>
      saveInventory
        {| inventory := foldl deduct (inventory st) (Recipe.ingredients recipe);
           localStorage := localStorage st |}
  end.

(** A click on the Cook button of the row of [recipe]: [render] attaches
    the handler only to a button that is not disabled, that is, when
    [canCook] held for the inventory it rendered. *)
Definition cookClick (recipe : Recipe.t) (st : State) : State :=
  if canCook (missingIngredients (inventory st) recipe)
  then cookHandler (Recipe.name recipe) st
  else st.

(** ** Vocabulary of the specification *)

(** An item matches an ingredient when the names are equal without
    regard to case. *)
Definition matches (ingredient : string) (item : Item.t) : Prop :=
  toLowerCase (Item.name item) = toLowerCase ingredient.

(** [item], at index [i], is the first item of the inventory that matches
    the ingredient. *)
Definition firstMatch (inventory : list Item.t) (ingredient : string)
    (i : nat) (item : Item.t) : Prop :=
  inventory !! i = Some item /\ matches ingredient item /\
  forall j other, inventory !! j = Some other -> (j < i)%nat ->
                  ~ matches ingredient other.

(** The index of the first item that matches an ingredient. *)
Definition firstIndex (ing : string) (inventory : list Item.t) : option nat :=
  fst <$> findByName ing inventory.

(** The item with another quantity, every other field kept. *)
Definition withQuantity (q : Z) (item : Item.t) : Item.t :=
  Item.mk (Item.id item) (Item.name item) q (Item.expirationDate item)
          (Item.barcode item) (Item.regular item).

(** Two items that differ at most in their quantity. *)
Definition sameButQuantity (a b : Item.t) : Prop :=
  Item.id a = Item.id b /\ Item.name a = Item.name b /\
  Item.expirationDate a = Item.expirationDate b /\
  Item.barcode a = Item.barcode b /\ Item.regular a = Item.regular b.

(** ** Sample data *)

Module Sample.

Definition stock (id name : string) (q : Z) : Item.t :=
  Item.mk id name q None None false.

Definition sandwich : Recipe.t :=
  Recipe.mk "Peanut Butter Sandwich" ["bread"; "peanut butter"; "jelly"].

(** A pantry that can make the sandwich, with bread entered twice. *)
Definition pantry : list Item.t := [
  stock "a" "Bread" 1;
  stock "b" "bread" 1;
  stock "c" "Peanut Butter" 2;
  stock "d" "jelly" 1
].

Definition state : State := {| inventory := pantry; localStorage := ∅ |}.

(** Local time five hours behind UTC, all year. *)
Definition fiveHoursWest (t : Z) : Z := (-5 * 60 * 60 * 1000)%Z.

(** 2024-05-04 17:00 UTC, which is noon of that day five hours west. *)
Definition noonMay4 : Z := 1714842000000%Z.

Definition milk (date : string) : Item.t :=
  Item.mk "m" "milk" 1 (Some date) None false.

End Sample.

(** ** The sections of [render] that are computed from the state *)

(** [Array.prototype.map] with a callback that can throw: the first
    exception ends the loop. *)
Fixpoint mapC {A B} (f : A -> completion B) (l : list A) : completion (list B) :=
  match l with
  | [] => Normal []
  | x :: l' =>
      match f x with
      | Throw e => Throw e
      | Normal y =>
          match mapC f l' with
          | Throw e => Throw e
          | Normal ys => Normal (y :: ys)
          end
      end
  end.

(** What one line of the reminders shows: the name of the item, the days
    left (for an item that expires soon) and the cheapest store, if
    any. *)
Record Reminder := {
  reminderName : string;
  reminderDays : option Z;
  reminderStore : option PriceEntry
}.

(** [daysLeft >= 0 ? daysLeft : 0] *)
Definition shownDays (daysLeft : option Z) : Z :=
  match daysLeft with
  | Some d => if (0 <=? d)%Z then d else 0%Z
  | None => 0%Z
  end.

(** The callback of [soonItems.map]. *)
Definition soonReminder (entry : Expiring) : completion Reminder :=
  match getCheapestStoreFor (toLowerCase (Item.name (item entry))) with
  | Throw e => Throw e
  | Normal store =>
      Normal {| reminderName := Item.name (item entry);
                reminderDays := Some (shownDays (daysLeft entry));
                reminderStore := store |}
  end.

(** The callback of [restock.map]. *)
Definition restockReminder (item : Item.t) : completion Reminder :=
  match getCheapestStoreFor (toLowerCase (Item.name item)) with
  | Throw e => Throw e
  | Normal store =>
      Normal {| reminderName := Item.name item;
                reminderDays := None;
                reminderStore := store |}
  end.

(** The page as data: the lines of the two reminder lists and the rows of
    the recipe table, each with its [missing] list and whether its Cook
    button is enabled. *)
Record View := {
  soonList : list Reminder;
  restockList : list Reminder;
  suggestionRows : list (Recipe.t * list string * bool)
}.

(** [render()], up to the assignment to [app.innerHTML]: the reminders
    are computed first, then the suggestions.  The markup around the
    data, the writes to the document and the listeners are left out. *)
Definition render (LocalTZA : Z -> Z) (now : Z) (st : State) : completion View :=
  match mapC soonReminder (getSoonExpiringItems LocalTZA now (inventory st)) with
  | Throw e => Throw e
  | Normal soon =>
      match mapC restockReminder (getRestockItems (inventory st)) with
      | Throw e => Throw e
      | Normal restock =>
          Normal {| soonList := soon;
                    restockList := restock;
                    suggestionRows :=
                      map (fun '(recipe, missing) =>
                             (recipe, missing, canCook missing))
                          (getRecipeSuggestions (inventory st)) |}
      end
  end.

(** ** The signed-in user *)

(** The start-up block that loads the user: [null] unless a stored value
    parses. *)
Definition loadUser (storage : gmap string string) : completion JSON.value :=
  let user := JSON.JNull in
  tryCatch
    (match storage !! "googleUser" with
     | Some storedUser =>
         if truthy storedUser then
           match JSON.parse storedUser with
           | Normal v => Normal v
           | Throw e => Throw e
           end
         else Normal user
     | None => Normal user
     end)
    (fun e => (* console.warn *) Normal user).

(** The state of the page: the inventory with [localStorage], and the
    user. *)
Record App := {
  appState : State;
  user : JSON.value
}.

(** The click handler of the sign-out button. *)
Definition signOut (app : App) : App :=
  {| appState :=
       {| inventory := inventory (appState app);
          localStorage := delete "googleUser" (localStorage (appState app)) |};
     user := JSON.JNull |}.

(** ** Sequences of clicks *)

(** The actions on the inventory: a submission of the add form (with the
    identifier [generateId] gives it), and a click on a Use, Delete or
    Cook button. *)
Inductive event :=
| Submit (form : AddForm) (newId : string)
| Use (id : string)
| Delete (id : string)
| Cook (recipe : Recipe.t).

Definition step (e : event) (st : State) : State :=
  match e with
  | Submit form newId => addSubmit form newId st
  | Use id => useClick id st
  | Delete id => deleteClick id st
  | Cook recipe => cookClick recipe st
  end.

Definition run (events : list event) (st : State) : State :=
  foldl (fun st e => step e st) st events.

(** ** More vocabulary *)

(** The identifiers of the inventory, in order. *)
Definition ids (st : State) : list string := Item.id <$> inventory st.

(** The stored snapshot reads back as the inventory in memory. *)
Definition persisted (st : State) : Prop :=
  loadInventory (localStorage st)
  = Normal (Persist.inventoryValue (inventory st)).

(** Every identifier that a submission brings is new when it comes. *)
Fixpoint freshIds (events : list event) (st : State) : Prop :=
  match events with
  | [] => True
  | e :: events' =>
      match e with
      | Submit _ newId => newId ∉ ids st
      | _ => True
      end /\ freshIds events' (step e st)
  end.

(** The sum of the quantities. *)
Definition totalQuantity (inventory : list Item.t) : Z :=
  foldr Z.add 0%Z (Item.quantity <$> inventory).

(** The names that [priceData] inherits and that a lowercased name can
    be. *)
Definition inheritedName (name : string) : Prop :=
  toLowerCase name = "constructor" \/ toLowerCase name = "__proto__".

(** No quantity of the inventory is negative. *)
Definition nonNegative (inventory : list Item.t) : Prop :=
  Forall (fun it => (0 <= Item.quantity it)%Z) inventory.

(** The submissions of a sequence all bring a quantity that is not
    negative. *)
Definition noNegativeSubmission (events : list event) : Prop :=
  Forall (fun e => match e with
                   | Submit form _ =>
                       (0 <= default 0%Z (parseInt (formQuantity form)))%Z
                   | _ => True
                   end) events.

(** A name as the add form stores it: its first and its last character
    are not white space (so it is not empty). *)
Definition trimmedName (name : string) : Prop :=
  (exists c rest, name = String c rest /\ isWhiteSpace c = false)
  /\ (exists front c, name = front +:+ String c EmptyString
                      /\ isWhiteSpace c = false).

Definition trimmedNames (inventory : list Item.t) : Prop :=
  Forall (fun it => trimmedName (Item.name it)) inventory.

(** ** A session on the sample pantry *)

Module Session.

Definition form : AddForm :=
  {| formName := "  Eggs ";
     formQuantity := "12";
     formExpirationDate := "2024-05-09";
     formRegular := Some "on" |}.

Definition events : list event :=
  [Submit form "e"; Use "a"; Cook Sample.sandwich; Delete "b"].

(** The sample pantry after a save. *)
Definition saved : State := saveInventory Sample.state.

Definition peanutButter : Item.t := Sample.stock "c" "Peanut Butter" 2.

(** A regular item of which one is left. *)
Definition lastMilk : Item.t := Item.mk "m" "milk" 1 None None true.

Definition fridge : State := {| inventory := [lastMilk]; localStorage := ∅ |}.

(** The sample pantry with its names in capitals. *)
Definition capitals : list Item.t := [
  Sample.stock "a" "BREAD" 1;
  Sample.stock "b" "BREAD" 1;
  Sample.stock "c" "PEANUT BUTTER" 2;
  Sample.stock "d" "JELLY" 1
].

(** Local time two hours ahead of UTC, all year. *)
Definition twoHoursEast (t : Z) : Z := (2 * 60 * 60 * 1000)%Z.

(** 2024-05-09 00:00 UTC. *)
Definition may9 : Z := 1715212800000%Z.

End Session.

(** ** A pantry with a quantity beyond [2 ^ 53] *)

Module Bulk.

(** The double nearest to [1e23], a whole number. *)
Definition quantity : Z := 99999999999999991611392%Z.

Definition form : AddForm :=
  {| formName := "rice";
     formQuantity := "99999999999999991611392";
     formExpirationDate := EmptyString;
     formRegular := None |}.

Definition rice : Item.t := Sample.stock "r" "rice" quantity.

(** The page after the submission of [form] on an empty inventory. *)
Definition state : State :=
  addSubmit form "r" {| inventory := []; localStorage := ∅ |}.

Definition bread : Item.t := Sample.stock "a" "bread" quantity.

(** A pantry that can make the sandwich, with bread in bulk. *)
Definition pantry : list Item.t := [
  bread;
  Sample.stock "c" "peanut butter" 1;
  Sample.stock "d" "jelly" 1
].

Definition kitchen : State := {| inventory := pantry; localStorage := ∅ |}.

End Bulk.

(** * Properties *)

Local Open Scope list_scope.

(** A decidable proposition that holds by evaluation. *)
Ltac by_decide := apply (bool_decide_unpack _); vm_compute; exact I.

(** * Numbers *)

#[local] Arguments JSNumber.subtract : simpl never.

Lemma roundTiesToEven_exact (n : Z) :
  (Z.abs n < 2 ^ 53)%Z → JSNumber.roundTiesToEven n = n.
Proof.
  intros Hn. unfold JSNumber.roundTiesToEven.
  by rewrite (proj2 (Z.ltb_lt _ _) Hn).
Qed.

Lemma roundTiesToEven_pos (n : Z) :
  (0 < n)%Z → (0 < JSNumber.roundTiesToEven n)%Z.
Proof.
  intros Hn. unfold JSNumber.roundTiesToEven.
  rewrite (Z.abs_eq n), (Z.sgn_pos n) by lia.
  destruct (Z.ltb_spec n (2 ^ 53)) as [|Hbig]; [done|].
  assert (He : (0 ≤ Z.log2 n - 52)%Z).
  { apply Z.log2_le_pow2 in Hbig; lia. }
  set (e := (Z.log2 n - 52)%Z) in *.
  assert (Hpow : (0 < 2 ^ e)%Z) by (apply Z.pow_pos_nonneg; lia).
  assert (Hm : (1 ≤ n / 2 ^ e)%Z).
  { apply Z.div_le_lower_bound; [done|].
    rewrite Z.mul_1_r. transitivity (2 ^ Z.log2 n)%Z.
    - apply Z.pow_le_mono_r; lia.
    - apply Z.log2_spec. lia. }
  destruct (orb _ _); nia.
Qed.

(** Up to [2 ^ 53] the subtraction of 1 is exact. *)
Lemma subtract_one_exact (q : Z) :
  (0 ≤ q ≤ 2 ^ 53)%Z → JSNumber.subtract q 1 = (q - 1)%Z.
Proof.
  intros Hq. unfold JSNumber.subtract. apply roundTiesToEven_exact. lia.
Qed.

(** Beyond, it is rounded; but one unit less than a positive whole number
    is never negative, and one less than 2 or more is 1 or more. *)
Lemma subtract_one_nonneg (q : Z) :
  (0 < q)%Z → (0 ≤ JSNumber.subtract q 1)%Z.
Proof.
  intros Hq. unfold JSNumber.subtract.
  destruct (decide (q = 1%Z)) as [->|Hne]; [done|].
  apply Z.lt_le_incl, roundTiesToEven_pos. lia.
Qed.

Lemma subtract_one_pos (q : Z) :
  (2 ≤ q)%Z → (1 ≤ JSNumber.subtract q 1)%Z.
Proof.
  intros Hq. unfold JSNumber.subtract.
  assert (0 < JSNumber.roundTiesToEven (q - 1))%Z; [|lia].
  apply roundTiesToEven_pos. lia.
Qed.

(** * Restock view *)

Lemma getRestockItems_elem_of (inventory : list Item.t) (item : Item.t) :
  item ∈ getRestockItems inventory ↔
  item ∈ inventory ∧ Item.regular item = true ∧ (Item.quantity item ≤ 0)%Z.
Proof. unfold getRestockItems. rewrite list_elem_of_filter. tauto. Qed.

(** C5: an item is in the restock list exactly when it is in the
    inventory, its [regular] flag is set and its quantity is at most 0;
    so a regular item of quantity 0 is listed, an item of quantity 1 never
    is, and the list keeps the order of the inventory. *)
Theorem getRestockItems_spec (inventory : list Item.t) :
  (∀ item, item ∈ getRestockItems inventory ↔
           item ∈ inventory ∧ Item.regular item = true
           ∧ (Item.quantity item ≤ 0)%Z)
  ∧ (∀ item, item ∈ inventory → Item.regular item = true →
             Item.quantity item = 0%Z → item ∈ getRestockItems inventory)
  ∧ (∀ item, Item.quantity item = 1%Z → item ∉ getRestockItems inventory)
  ∧ sublist (getRestockItems inventory) inventory.
Proof.
  split_and!.
  - apply getRestockItems_elem_of.
  - intros item Hin Hreg Hq. apply getRestockItems_elem_of.
    split_and!; [done..|lia].
  - intros item Hq (_ & _ & Hle)%getRestockItems_elem_of. lia.
  - apply sublist_filter.
Qed.

(** * Delete *)

Lemma filter_other_ids (id : string) (l : list Item.t) :
  id ∉ (Item.id <$> l) → filter (λ itm, Item.id itm ≠ id) l = l.
Proof.
  induction l as [|x l IH]; simpl; [done|].
  rewrite not_elem_of_cons. intros [Hx Hl].
  rewrite filter_cons_True by congruence. by rewrite IH.
Qed.

Lemma filter_unique_id (id : string) (l : list Item.t) :
  NoDup (Item.id <$> l) → id ∈ (Item.id <$> l) →
  ∃ before item after,
    l = before ++ item :: after ∧ Item.id item = id ∧
    filter (λ itm, Item.id itm ≠ id) l = before ++ after.
Proof.
  induction l as [|x l IH]; simpl.
  - intros _ Hin. by apply elem_of_nil in Hin.
  - rewrite NoDup_cons. intros [Hx Hnd] Hin.
    destruct (decide (Item.id x = id)) as [Heq|Hne].
    + exists [], x, l. split_and!; [done..|].
      rewrite filter_cons_False by (intros ?; congruence).
      apply filter_other_ids. by rewrite <- Heq.
    + apply elem_of_cons in Hin as [Hin|Hin]; [congruence|].
      destruct (IH Hnd Hin) as (before & item & after & -> & Hid & Hf).
      exists (x :: before), item, after. split_and!; [done..|].
      rewrite filter_cons_True by done. by rewrite Hf.
Qed.

(** C6: in an inventory whose identifiers are unique, deleting by an
    identifier that is present removes the one item that has it; the items
    before and after it stay as they are, in their order. *)
Theorem deleteClick_removes_exactly (id : string) (st : State) :
  NoDup (Item.id <$> inventory st) →
  id ∈ (Item.id <$> inventory st) →
  ∃ before item after,
    inventory st = before ++ item :: after ∧ Item.id item = id ∧
    inventory (deleteClick id st) = before ++ after.
Proof. intros Hnd Hin. simpl. by apply filter_unique_id. Qed.

Lemma deleteClick_removes_exactly_witness :
  ∃ before item after,
    Sample.pantry = before ++ item :: after ∧ Item.id item = "b" ∧
    inventory (deleteClick "b" Sample.state) = before ++ after.
Proof.
  apply (deleteClick_removes_exactly "b" Sample.state).
  - by_decide.
  - by_decide.
Defined.

(** * Use *)

Lemma list_find_id_unique (l : list Item.t) (i : nat) (item : Item.t) :
  NoDup (Item.id <$> l) → l !! i = Some item →
  list_find (λ itm, Item.id itm = Item.id item) l = Some (i, item).
Proof.
  intros Hnd Hi. apply list_find_Some. split_and!; [done..|].
  intros j other Hj Hlt Heq.
  assert (j = i); [|lia].
  eapply NoDup_lookup; [exact Hnd|..].
  - rewrite list_lookup_fmap, Hj. simpl. by rewrite Heq.
  - by rewrite list_lookup_fmap, Hi.
Qed.

(** C7: with unique identifiers, the Use button of an item of quantity at
    most [2 ^ 53] takes 1 from its quantity when that is above 0 and
    leaves it as it is otherwise (0 stays 0); whatever the quantity, the
    item keeps its other fields, and every other slot of the inventory
    keeps its item. *)
Theorem useClick_spec (st : State) (i : nat) (item : Item.t) :
  NoDup (Item.id <$> inventory st) →
  inventory st !! i = Some item →
  ∃ item',
    inventory (useClick (Item.id item) st) = <[i := item']> (inventory st)
    ∧ sameButQuantity item' item
    ∧ ((Item.quantity item ≤ 2 ^ 53)%Z →
       Item.quantity item' =
         (if (0 <? Item.quantity item)%Z then Item.quantity item - 1
          else Item.quantity item)%Z)
    ∧ (Item.quantity item = 0%Z → Item.quantity item' = 0%Z)
    ∧ ∀ j, j ≠ i →
        inventory (useClick (Item.id item) st) !! j = inventory st !! j.
Proof.
  intros Hnd Hi. unfold useClick.
  rewrite (list_find_id_unique _ _ _ Hnd Hi). simpl.
  destruct (0 <? Item.quantity item)%Z eqn:Hq.
  - apply Z.ltb_lt in Hq.
    exists (Item.decrement item). split_and!; try done.
    + intros Hle. simpl. apply subtract_one_exact. lia.
    + lia.
    + intros j Hj. by rewrite list_lookup_insert_ne.
  - exists item. split_and!; try done.
    by rewrite list_insert_id.
Qed.

Lemma useClick_spec_witness :
  ∃ item',
    inventory (useClick "c" Sample.state) = <[2%nat := item']> Sample.pantry
    ∧ sameButQuantity item' (Sample.stock "c" "Peanut Butter" 2)
    ∧ ((2 ≤ 2 ^ 53)%Z → Item.quantity item' = 1%Z)
    ∧ (2 = 0 → Item.quantity item' = 0)%Z
    ∧ ∀ j, j ≠ 2%nat →
        inventory (useClick "c" Sample.state) !! j = Sample.pantry !! j.
Proof.
  apply (useClick_spec Sample.state 2 (Sample.stock "c" "Peanut Butter" 2)).
  - by_decide.
  - reflexivity.
Defined.

(** C7, as stated, fails beyond [2 ^ 53], where the subtraction is
    rounded: the form stores a quantity of 99999999999999991611392, which
    is above 0, and the Use button of that item leaves the inventory as it
    is. *)
Lemma useClick_rounding_counterexample :
  inventory Bulk.state = [Bulk.rice]
  ∧ (0 < Item.quantity Bulk.rice)%Z
  ∧ inventory (useClick (Item.id Bulk.rice) Bulk.state) = [Bulk.rice].
Proof. split_and!; vm_compute; reflexivity. Qed.

(** * Recipe suggestions *)

Lemma findByName_Some (inventory : list Item.t) ingredient i item :
  findByName ingredient inventory = Some (i, item) ↔
  firstMatch inventory ingredient i item.
Proof.
  unfold findByName, firstMatch, matches. rewrite list_find_Some.
  naive_solver.
Qed.

Lemma findByName_None (inventory : list Item.t) ingredient :
  findByName ingredient inventory = None ↔
  ∀ item, item ∈ inventory → ¬ matches ingredient item.
Proof.
  unfold findByName, matches. rewrite list_find_None, Forall_forall. done.
Qed.

Lemma unavailable_true (inventory : list Item.t) ingredient :
  unavailable (findByName ingredient inventory) = true ↔
  (∀ item, item ∈ inventory → ¬ matches ingredient item)
  ∨ ∃ i item, firstMatch inventory ingredient i item
              ∧ (Item.quantity item ≤ 0)%Z.
Proof.
  destruct (findByName ingredient inventory) as [[i item]|] eqn:Hfind; simpl.
  - apply findByName_Some in Hfind as Hfirst. rewrite Z.leb_le. split.
    + intros Hq. right. by exists i, item.
    + intros [Hnone|(j & other & Hother & Hq)].
      * destruct Hfirst as (Hi & Hm & _).
        exfalso. eapply Hnone; [|done]. by eapply list_elem_of_lookup_2.
      * apply findByName_Some in Hother. congruence.
  - split; [|done]. intros _. left. by apply findByName_None.
Qed.

Lemma foldl_push_filter (P : string → bool) (l acc : list string) :
  foldl (λ missing x, if P x then missing ++ [x] else missing) acc l
  = acc ++ filter (λ x, P x = true) l.
Proof.
  revert acc. induction l as [|x l IH]; intros acc; simpl.
  - by rewrite app_nil_r.
  - rewrite IH. destruct (P x) eqn:HP.
    + rewrite filter_cons_True by done. by rewrite <- app_assoc.
    + rewrite filter_cons_False by congruence. done.
Qed.

Lemma missingIngredients_filter inventory recipe :
  missingIngredients inventory recipe
  = filter (λ ing, unavailable (findByName ing inventory) = true)
           (Recipe.ingredients recipe).
Proof.
  unfold missingIngredients.
  apply (foldl_push_filter (λ ing, unavailable (findByName ing inventory))).
Qed.

Lemma missing_elem_of inventory recipe ing :
  ing ∈ missingIngredients inventory recipe ↔
  ing ∈ Recipe.ingredients recipe
  ∧ ((∀ item, item ∈ inventory → ¬ matches ing item)
     ∨ ∃ i item, firstMatch inventory ing i item ∧ (Item.quantity item ≤ 0)%Z).
Proof.
  rewrite missingIngredients_filter, list_elem_of_filter, unavailable_true.
  tauto.
Qed.

Lemma canCook_nil (missing : list string) : canCook missing = true ↔ missing = [].
Proof. destruct missing; simpl; split; done. Qed.

Lemma firstMatch_zeroed inventory ing i item :
  firstMatch inventory ing i item →
  firstMatch (<[i := withQuantity 0 item]> inventory) ing i (withQuantity 0 item).
Proof.
  intros (Hi & Hm & Hfirst). split_and!.
  - apply list_lookup_insert_eq. by eapply lookup_lt_Some.
  - done.
  - intros j other Hj Hlt. rewrite list_lookup_insert_ne in Hj by lia. eauto.
Qed.

Lemma delete_only_match (inventory : list Item.t) ing i item :
  inventory !! i = Some item →
  (∀ j other, j ≠ i → inventory !! j = Some other → ¬ matches ing other) →
  ∀ other, other ∈ delete i inventory → ¬ matches ing other.
Proof.
  intros Hi Honly other (j & Hj)%list_elem_of_lookup.
  destruct (decide (j < i)%nat).
  - rewrite list_lookup_delete_lt in Hj by done. apply (Honly j); [lia|done].
  - rewrite list_lookup_delete_ge in Hj by lia. apply (Honly (S j)); [lia|done].
Qed.

(** C1, as amended: an ingredient is in the [missing] list of a recipe
    exactly when it is an ingredient of the recipe and either no item of
    the inventory matches it or the first item that matches it has a
    quantity of at most 0; Cook is enabled exactly when the list is empty.
    An ingredient whose first match has a quantity of at least 1 is not
    missing; it becomes missing when the quantity of that first match is
    set to 0, and when the one item that matches it is removed. *)
Theorem getRecipeSuggestions_spec (inventory : list Item.t) (recipe : Recipe.t) :
  (recipe ∈ recipes →
     (recipe, missingIngredients inventory recipe)
       ∈ getRecipeSuggestions inventory)
  ∧ (∀ ing, ing ∈ missingIngredients inventory recipe ↔
       ing ∈ Recipe.ingredients recipe
       ∧ ((∀ item, item ∈ inventory → ¬ matches ing item)
          ∨ ∃ i item, firstMatch inventory ing i item
                      ∧ (Item.quantity item ≤ 0)%Z))
  ∧ (canCook (missingIngredients inventory recipe) = true ↔
       missingIngredients inventory recipe = [])
  ∧ (∀ ing i item,
       firstMatch inventory ing i item → (1 ≤ Item.quantity item)%Z →
       ing ∉ missingIngredients inventory recipe)
  ∧ (∀ ing i item,
       ing ∈ Recipe.ingredients recipe →
       firstMatch inventory ing i item →
       ing ∈ missingIngredients (<[i := withQuantity 0 item]> inventory) recipe
       ∧ canCook (missingIngredients (<[i := withQuantity 0 item]> inventory)
                                     recipe) = false)
  ∧ (∀ ing i item,
       ing ∈ Recipe.ingredients recipe →
       inventory !! i = Some item → matches ing item →
       (∀ j other, j ≠ i → inventory !! j = Some other → ¬ matches ing other) →
       ing ∈ missingIngredients (delete i inventory) recipe
       ∧ canCook (missingIngredients (delete i inventory) recipe) = false).
Proof.
  assert (Hoff : ∀ inv ing, ing ∈ missingIngredients inv recipe →
                 canCook (missingIngredients inv recipe) = false).
  { intros inv ing Hin. destruct (missingIngredients inv recipe); [|done].
    by apply elem_of_nil in Hin. }
  split_and!.
  - intros Hin. unfold getRecipeSuggestions.
    apply (list_elem_of_fmap_2 (λ r, (r, missingIngredients inventory r))), Hin.
  - apply missing_elem_of.
  - apply canCook_nil.
  - intros ing i item Hfirst Hq (_ & [Hnone|(j & other & Hother & Hle)])%missing_elem_of.
    + destruct Hfirst as (Hi & Hm & _).
      eapply Hnone; [|done]. by eapply list_elem_of_lookup_2.
    + apply findByName_Some in Hfirst, Hother.
      assert (other = item) by congruence. subst. lia.
  - intros ing i item Hing Hfirst.
    assert (ing ∈ missingIngredients (<[i := withQuantity 0 item]> inventory) recipe)
      as Hin; [|by eauto].
    apply missing_elem_of. split; [done|]. right.
    exists i, (withQuantity 0 item). split; [|done].
    by apply firstMatch_zeroed.
  - intros ing i item Hing Hi Hm Honly.
    assert (ing ∈ missingIngredients (delete i inventory) recipe)
      as Hin; [|by eauto].
    apply missing_elem_of. split; [done|]. left.
    by eapply delete_only_match.
Qed.

(** C1, as stated, fails where two items match one ingredient: every
    ingredient of the sandwich has a matching item of quantity 1 or more,
    yet with the first bread removed, or the second bread at quantity 0,
    bread is not missing. *)
Lemma missing_after_removal_counterexample :
  (∀ ing, ing ∈ Recipe.ingredients Sample.sandwich →
          ∃ item, item ∈ Sample.pantry ∧ matches ing item
                  ∧ (1 ≤ Item.quantity item)%Z)
  ∧ Sample.pantry !! 0%nat = Some (Sample.stock "a" "Bread" 1)
  ∧ matches "bread" (Sample.stock "a" "Bread" 1)
  ∧ missingIngredients (delete 0%nat Sample.pantry) Sample.sandwich = []
  ∧ Sample.pantry !! 1%nat = Some (Sample.stock "b" "bread" 1)
  ∧ matches "bread" (Sample.stock "b" "bread" 1)
  ∧ missingIngredients
      (<[1%nat := withQuantity 0 (Sample.stock "b" "bread" 1)]> Sample.pantry)
      Sample.sandwich = [].
Proof.
  split_and!; try reflexivity.
  intros ing Hin. simpl in Hin.
  repeat (apply elem_of_cons in Hin as [->|Hin]).
  - exists (Sample.stock "a" "Bread" 1). split_and!; [by_decide|reflexivity|simpl; lia].
  - exists (Sample.stock "c" "Peanut Butter" 2). split_and!; [by_decide|reflexivity|simpl; lia].
  - exists (Sample.stock "d" "jelly" 1). split_and!; [by_decide|reflexivity|simpl; lia].
  - by apply elem_of_nil in Hin.
Qed.

(** * Cook *)

(** The index of the first item that matches an ingredient depends on the
    names of the inventory only. *)

Lemma firstIndex_names (ing : string) (inv inv' : list Item.t) :
  Item.name <$> inv = Item.name <$> inv' →
  firstIndex ing inv = firstIndex ing inv'.
Proof.
  intros Hnames. unfold firstIndex, findByName.
  pose proof (list_find_fmap Item.name (λ n, toLowerCase n = toLowerCase ing) inv) as H1.
  pose proof (list_find_fmap Item.name (λ n, toLowerCase n = toLowerCase ing) inv') as H2.
  rewrite Hnames in H1. rewrite H1 in H2.
  unfold compose in H2.
  destruct (list_find _ inv) as [[i x]|], (list_find _ inv') as [[j y]|];
    simpl in *; congruence.
Qed.

Lemma deduct_cases (cur : list Item.t) (ing : string) :
  (deduct cur ing = cur)
  ∨ ∃ i item, findByName ing cur = Some (i, item) ∧ (0 < Item.quantity item)%Z
              ∧ deduct cur ing = <[i := Item.decrement item]> cur.
Proof.
  unfold deduct. destruct (findByName ing cur) as [[i item]|] eqn:Hf; [|by left].
  destruct (0 <? Item.quantity item)%Z eqn:Hq; [|by left].
  right. exists i, item. by rewrite Z.ltb_lt in Hq.
Qed.

Lemma deduct_names (cur : list Item.t) (ing : string) :
  Item.name <$> deduct cur ing = Item.name <$> cur.
Proof.
  destruct (deduct_cases cur ing) as [->|(i & item & Hf & _ & ->)]; [done|].
  rewrite list_fmap_insert. apply list_insert_id.
  apply findByName_Some in Hf as (Hi & _). by rewrite list_lookup_fmap, Hi.
Qed.

Lemma deduct_lookup_ne (cur : list Item.t) (ing : string) (j : nat) :
  firstIndex ing cur ≠ Some j → deduct cur ing !! j = cur !! j.
Proof.
  intros Hne.
  destruct (deduct_cases cur ing) as [->|(i & item & Hf & _ & ->)]; [done|].
  apply list_lookup_insert_ne. intros ->.
  apply Hne. unfold firstIndex. by rewrite Hf.
Qed.

Lemma deduct_lookup_eq (cur : list Item.t) (ing : string) i item :
  findByName ing cur = Some (i, item) →
  deduct cur ing !! i
  = Some (if (0 <? Item.quantity item)%Z then Item.decrement item else item).
Proof.
  intros Hf. unfold deduct. rewrite Hf.
  apply findByName_Some in Hf as (Hi & _).
  destruct (0 <? Item.quantity item)%Z; [|done].
  apply list_lookup_insert_eq. by eapply lookup_lt_Some.
Qed.

(** Two ingredients that differ when lowercased have different first
    matches. *)
Lemma firstIndex_distinct (inv : list Item.t) (a b : string) (i : nat) :
  toLowerCase a ≠ toLowerCase b →
  firstIndex a inv = Some i → firstIndex b inv ≠ Some i.
Proof.
  unfold firstIndex. intros Hab Ha Hb.
  destruct (findByName a inv) as [[ia x]|] eqn:Hfa; [|done].
  destruct (findByName b inv) as [[ib y]|] eqn:Hfb; [|done].
  simpl in *. simplify_eq.
  apply findByName_Some in Hfa as (Hx & Hma & _).
  apply findByName_Some in Hfb as (Hy & Hmb & _).
  unfold matches in *. congruence.
Qed.

(** The loop of the Cook handler, over ingredients that are distinct when
    lowercased: starting from [cur], which has the names of [inv] and
    agrees with it at the first match of every ingredient still to come,
    each of those first matches ends decremented if its quantity was
    positive, and every other slot ends as it was in [cur]. *)
Lemma foldl_deduct_spec (inv : list Item.t) (ings : list string) :
  ∀ cur : list Item.t,
    NoDup (toLowerCase <$> ings) →
    Item.name <$> cur = Item.name <$> inv →
    (∀ ing i, ing ∈ ings → firstIndex ing inv = Some i → cur !! i = inv !! i) →
    Item.name <$> foldl deduct cur ings = Item.name <$> inv
    ∧ (∀ ing i item, ing ∈ ings → findByName ing inv = Some (i, item) →
         foldl deduct cur ings !! i
         = Some (if (0 <? Item.quantity item)%Z then Item.decrement item
                 else item))
    ∧ (∀ i, (∀ ing, ing ∈ ings → firstIndex ing inv ≠ Some i) →
         foldl deduct cur ings !! i = cur !! i).
Proof.
  induction ings as [|a rest IH]; intros cur Hnd Hnames Hfresh; simpl.
  - split_and!; [done| |done]. intros ing i item Hin. by apply elem_of_nil in Hin.
  - rewrite fmap_cons, NoDup_cons in Hnd. destruct Hnd as [Ha Hnd].
    assert (Hother : ∀ ing, ing ∈ rest → toLowerCase a ≠ toLowerCase ing).
    { intros ing Hin Heq. apply Ha. rewrite Heq. by apply list_elem_of_fmap_2. }
    assert (Hidx : firstIndex a cur = firstIndex a inv)
      by by apply firstIndex_names.
    destruct (IH (deduct cur a)) as (Hn & Hdec & Hkeep).
    + done.
    + by rewrite deduct_names.
    + intros ing i Hin Hi. rewrite deduct_lookup_ne.
      * apply (Hfresh ing); [by right|done].
      * rewrite Hidx. intros Hai.
        by eapply (firstIndex_distinct inv a ing i); [apply Hother|..].
    + split_and!.
      * done.
      * intros ing i item [->|Hin]%elem_of_cons Hf.
        -- rewrite Hkeep.
           ++ apply deduct_lookup_eq.
              assert (firstIndex a cur = Some i) as Hc
                by (rewrite Hidx; unfold firstIndex; by rewrite Hf).
              unfold firstIndex in Hc.
              destruct (findByName a cur) as [[j x]|] eqn:Hfc; [|done].
              simpl in Hc. simplify_eq.
              apply findByName_Some in Hfc as Hx. destruct Hx as (Hx & _).
              apply findByName_Some in Hf as Hy. destruct Hy as (Hy & _).
              rewrite (Hfresh a i) in Hx; [congruence|by left|].
              unfold firstIndex. by rewrite Hf.
           ++ intros ing Hin.
              apply (firstIndex_distinct inv a ing i); [by apply Hother|].
              unfold firstIndex. by rewrite Hf.
        -- by apply (Hdec ing).
      * intros i Hnone. rewrite Hkeep.
        -- apply deduct_lookup_ne. rewrite Hidx. apply Hnone. by left.
        -- intros ing Hin. apply Hnone. by right.
Qed.

Lemma recipes_distinct_ingredients :
  Forall (λ r, NoDup (toLowerCase <$> Recipe.ingredients r)) recipes.
Proof. by_decide. Qed.

Lemma recipes_find_by_name (recipe : Recipe.t) :
  recipe ∈ recipes →
  ∃ k, list_find (λ r, Recipe.name r = Recipe.name recipe) recipes
       = Some (k, recipe).
Proof.
  unfold recipes. intros Hin.
  repeat (apply elem_of_cons in Hin as [->|Hin]);
    [eexists; vm_compute; reflexivity..|].
  by apply elem_of_nil in Hin.
Qed.

Lemma cookable_first_match (inv : list Item.t) (recipe : Recipe.t) (ing : string) :
  canCook (missingIngredients inv recipe) = true →
  ing ∈ Recipe.ingredients recipe →
  ∃ i item, findByName ing inv = Some (i, item) ∧ (0 < Item.quantity item)%Z.
Proof.
  rewrite canCook_nil, missingIngredients_filter. intros Hnil Hin.
  assert (¬ unavailable (findByName ing inv) = true) as Hav.
  { intros Hun.
    assert (ing ∈ filter (λ ing, unavailable (findByName ing inv) = true)
                         (Recipe.ingredients recipe)) as Hf
      by by apply list_elem_of_filter.
    rewrite Hnil in Hf. by apply elem_of_nil in Hf. }
  destruct (findByName ing inv) as [[i item]|]; simpl in Hav; [|done].
  exists i, item. split; [done|]. rewrite Z.leb_le in Hav. lia.
Qed.

(** C2: for a recipe of the list that is cookable, a click on Cook
    decrements the first item that matches each ingredient, which takes
    exactly 1 from a quantity of at most [2 ^ 53]; every slot of the
    inventory either keeps its item or holds an item of positive quantity
    decremented once, so that no quantity that was at least 0 falls
    below 0. *)
Theorem cookClick_spec (recipe : Recipe.t) (st : State) :
  recipe ∈ recipes →
  canCook (missingIngredients (inventory st) recipe) = true →
  (∀ ing, ing ∈ Recipe.ingredients recipe →
     ∃ i item,
       firstMatch (inventory st) ing i item
       ∧ inventory (cookClick recipe st) !! i = Some (Item.decrement item)
       ∧ ((Item.quantity item ≤ 2 ^ 53)%Z →
          Item.quantity (Item.decrement item) = (Item.quantity item - 1)%Z)
       ∧ sameButQuantity (Item.decrement item) item)
  ∧ (∀ i item,
       inventory st !! i = Some item →
       inventory (cookClick recipe st) !! i = Some item
       ∨ ((0 < Item.quantity item)%Z
          ∧ inventory (cookClick recipe st) !! i = Some (Item.decrement item)))
  ∧ (∀ i item item',
       inventory st !! i = Some item →
       inventory (cookClick recipe st) !! i = Some item' →
       (0 ≤ Item.quantity item)%Z → (0 ≤ Item.quantity item')%Z)
  ∧ length (inventory (cookClick recipe st)) = length (inventory st).
Proof.
  intros Hin Hcook.
  destruct (recipes_find_by_name recipe Hin) as [k Hfind].
  assert (Hnd : NoDup (toLowerCase <$> Recipe.ingredients recipe)).
  { pose proof recipes_distinct_ingredients as Hall.
    rewrite Forall_forall in Hall. by apply Hall. }
  unfold cookClick, cookHandler. rewrite Hcook, Hfind. simpl.
  destruct (foldl_deduct_spec (inventory st) (Recipe.ingredients recipe)
              (inventory st) Hnd eq_refl ltac:(done))
    as (Hnames & Hdec & Hkeep).
  assert (Hslot : ∀ i item, inventory st !! i = Some item →
    foldl deduct (inventory st) (Recipe.ingredients recipe) !! i = Some item
    ∨ ((0 < Item.quantity item)%Z
       ∧ foldl deduct (inventory st) (Recipe.ingredients recipe) !! i
         = Some (Item.decrement item))).
  { intros i item Hi.
    destruct (decide (Exists (λ ing, firstIndex ing (inventory st) = Some i)
                             (Recipe.ingredients recipe))) as [Hex|Hno].
    - apply Exists_exists in Hex as (ing & Hing & Hidx).
      unfold firstIndex in Hidx.
      destruct (findByName ing (inventory st)) as [[j x]|] eqn:Hf; [|done].
      simpl in Hidx. simplify_eq.
      apply findByName_Some in Hf as Hx. destruct Hx as (Hx & _).
      assert (x = item) by congruence. subst x.
      rewrite (Hdec ing i item Hing Hf).
      destruct (0 <? Item.quantity item)%Z eqn:Hq; [|by left].
      right. by rewrite Z.ltb_lt in Hq.
    - left. rewrite Hkeep; [done|].
      intros ing Hing Hidx. apply Hno, Exists_exists. eauto. }
  split_and!.
  - intros ing Hing.
    destruct (cookable_first_match _ _ _ Hcook Hing) as (i & item & Hf & Hq).
    exists i, item. split_and!; try done.
    + by apply findByName_Some.
    + rewrite (Hdec ing i item Hing Hf).
      by rewrite (proj2 (Z.ltb_lt _ _) Hq).
    + intros Hle. simpl. apply subtract_one_exact. lia.
  - done.
  - intros i item item' Hi Hi' Hq.
    destruct (Hslot i item Hi) as [Hsame|[Hpos Hd]].
    + congruence.
    + assert (item' = Item.decrement item) by congruence. subst. simpl.
      by apply subtract_one_nonneg.
  - by rewrite <- (length_fmap Item.name), Hnames, length_fmap.
Qed.

Lemma cookClick_spec_witness :
  (∀ ing, ing ∈ Recipe.ingredients Sample.sandwich →
     ∃ i item,
       firstMatch Sample.pantry ing i item
       ∧ inventory (cookClick Sample.sandwich Sample.state) !! i
         = Some (Item.decrement item)
       ∧ ((Item.quantity item ≤ 2 ^ 53)%Z →
          Item.quantity (Item.decrement item) = (Item.quantity item - 1)%Z)
       ∧ sameButQuantity (Item.decrement item) item)
  ∧ (∀ i item,
       Sample.pantry !! i = Some item →
       inventory (cookClick Sample.sandwich Sample.state) !! i = Some item
       ∨ ((0 < Item.quantity item)%Z
          ∧ inventory (cookClick Sample.sandwich Sample.state) !! i
            = Some (Item.decrement item)))
  ∧ (∀ i item item',
       Sample.pantry !! i = Some item →
       inventory (cookClick Sample.sandwich Sample.state) !! i = Some item' →
       (0 ≤ Item.quantity item)%Z → (0 ≤ Item.quantity item')%Z)
  ∧ length (inventory (cookClick Sample.sandwich Sample.state))
    = length Sample.pantry.
Proof.
  apply (cookClick_spec Sample.sandwich Sample.state).
  - by_decide.
  - reflexivity.
Defined.

(** C2, as stated, fails beyond [2 ^ 53], where the subtraction is
    rounded: the sandwich is cookable on a pantry whose bread has a
    quantity of 99999999999999991611392, and after the click on Cook the
    bread is as it was. *)
Lemma cookClick_rounding_counterexample :
  Sample.sandwich ∈ recipes
  ∧ canCook (missingIngredients Bulk.pantry Sample.sandwich) = true
  ∧ "bread" ∈ Recipe.ingredients Sample.sandwich
  ∧ firstMatch Bulk.pantry "bread" 0 Bulk.bread
  ∧ inventory (cookClick Sample.sandwich Bulk.kitchen) !! 0%nat
    = Some Bulk.bread.
Proof.
  split_and!; [by_decide|reflexivity|by_decide| |vm_compute; reflexivity].
  apply findByName_Some. vm_compute. reflexivity.
Qed.

(** * Cheapest store *)

(** The scan from a current cheapest entry [cur]: either it keeps [cur],
    and no entry of the list is cheaper, or it returns an entry of the
    list that is cheaper than [cur], strictly cheaper than every entry
    before it and at most as dear as every entry after it. *)
Lemma foldl_cheapest (l : list PriceEntry) :
  ∀ cur,
    let c := foldl (λ cheapest entry,
                      if Qlt_le_dec (price entry) (price cheapest)
                      then entry else cheapest) cur l in
    (c = cur ∧ ∀ e, e ∈ l → (price cur <= price e)%Q)
    ∨ (∃ before after,
         l = before ++ c :: after ∧ (price c < price cur)%Q
         ∧ (∀ e, e ∈ before → (price c < price e)%Q)
         ∧ (∀ e, e ∈ after → (price c <= price e)%Q)).
Proof.
  induction l as [|x l IH]; intros cur; simpl.
  - left. split; [done|]. intros e He. by apply elem_of_nil in He.
  - destruct (Qlt_le_dec (price x) (price cur)) as [Hlt|Hle].
    + right. destruct (IH x) as [[-> Hall]|(before & after & Hl & Hc & Hb & Ha)].
      * exists [], l. split_and!; [done|done| |done].
        intros e He. by apply elem_of_nil in He.
      * exists (x :: before), after. split_and!.
        -- simpl. by rewrite <- Hl.
        -- by eapply Qlt_trans.
        -- intros e [->|He]%elem_of_cons; auto.
        -- done.
    + destruct (IH cur) as [[-> Hall]|(before & after & Hl & Hc & Hb & Ha)].
      * left. split; [done|]. intros e [->|He]%elem_of_cons; auto.
      * right. exists (x :: before), after. split_and!.
        -- simpl. by rewrite <- Hl.
        -- done.
        -- intros e [->|He]%elem_of_cons; [|auto]. by eapply Qlt_le_trans.
        -- done.
Qed.

(** On a list with a first entry, the scan returns an entry of minimum
    price, the first of the list among those. *)
Lemma cheapestOf_first_minimum (first : PriceEntry) (rest : list PriceEntry) :
  ∃ before after,
    first :: rest = before ++ cheapestOf first (first :: rest) :: after
    ∧ (∀ e, e ∈ before → (price (cheapestOf first (first :: rest)) < price e)%Q)
    ∧ (∀ e, e ∈ after → (price (cheapestOf first (first :: rest)) <= price e)%Q).
Proof.
  unfold cheapestOf.
  destruct (foldl_cheapest (first :: rest) first)
    as [[Hc Hall]|(before & after & Hl & Hc & Hb & Ha)].
  - rewrite Hc. exists [], rest. split_and!; [done| |].
    + intros e He. by apply elem_of_nil in He.
    + intros e He. apply Hall. by right.
  - exists before, after. done.
Qed.

(** Away from the names that [Object.prototype] defines, the look-up
    gives no suggestion exactly when the table has no list for the
    lowercased name or has an empty one, and the cheapest entry, first
    among equals, otherwise. *)
Lemma getCheapestStoreFor_own (itemName : string) :
  lookupProperty (toLowerCase itemName) ObjectPrototype = None →
  match priceData !! toLowerCase itemName with
  | None | Some [] => getCheapestStoreFor itemName = Normal None
  | Some list =>
      ∃ c before after,
        getCheapestStoreFor itemName = Normal (Some c)
        ∧ list = before ++ c :: after
        ∧ (∀ e, e ∈ before → (price c < price e)%Q)
        ∧ (∀ e, e ∈ after → (price c <= price e)%Q)
  end.
Proof.
  intros Hproto. unfold getCheapestStoreFor, getProperty.
  generalize (priceData !! toLowerCase itemName).
  intros [[|first rest]|].
  - reflexivity.
  - destruct (cheapestOf_first_minimum first rest) as (before & after & H).
    exists (cheapestOf first (first :: rest)), before, after.
    split; [reflexivity|exact H].
  - rewrite Hproto. reflexivity.
Qed.

Example cheapest_of_three :
  cheapestOf {| store := "A"; price := 1.5 |}
    [ {| store := "A"; price := 1.5 |}; {| store := "B"; price := 1.4 |};
      {| store := "C"; price := 1.6 |} ]
  = {| store := "B"; price := 1.4 |}.
Proof. reflexivity. Qed.

Example cheapest_of_tie :
  cheapestOf {| store := "A"; price := 1.0 |}
    [ {| store := "A"; price := 1.0 |}; {| store := "B"; price := 1.0 |} ]
  = {| store := "A"; price := 1.0 |}.
Proof. reflexivity. Qed.

Example cheapest_bread :
  getCheapestStoreFor "Bread" = Normal (Some {| store := "Target"; price := 1.4 |}).
Proof. vm_compute. reflexivity. Qed.

(** C4, where the code departs from it: the table has no price list for
    [constructor] (nor for [__proto__]), and the look-up, instead of
    giving no suggestion, throws: the name reaches a property that
    [priceData] inherits, which is not an array. *)
Theorem getCheapestStoreFor_inherited_name :
  toLowerCase "constructor" = "constructor"
  ∧ priceData !! "constructor" = None
  ∧ getCheapestStoreFor "constructor" = Throw TypeError
  ∧ priceData !! "__proto__" = None
  ∧ getCheapestStoreFor "__proto__" = Throw TypeError.
Proof. split_and!; vm_compute; reflexivity. Qed.

(** * Calendar *)

Module Calendar.
Import JSDate.
Local Open Scope Z_scope.

(** Linear arithmetic with divisions by constants, each replaced by its
    quotient and remainder. *)
Ltac div_lia := Z.to_euclidean_division_equations; lia.

Lemma DaysInYear_cases (y : Z) : DaysInYear y = 365 ∨ DaysInYear y = 366.
Proof.
  unfold DaysInYear.
  destruct (y mod 4 =? 0), (y mod 100 =? 0), (y mod 400 =? 0); simpl; auto.
Qed.

Lemma DayFromYear_succ (y : Z) :
  DayFromYear (y + 1) = DayFromYear y + DaysInYear y.
Proof.
  unfold DayFromYear, DaysInYear.
  destruct (y mod 4 =? 0) eqn:H4; simpl;
    [destruct (y mod 100 =? 0) eqn:H100; simpl;
     [destruct (y mod 400 =? 0) eqn:H400; simpl|]|].
  all: rewrite ?Z.eqb_eq, ?Z.eqb_neq in *.
  all: div_lia.
Qed.

(** [YearFromDay d] is the year the day [d] falls in: the largest [y] with
    [DayFromYear y <= d]. *)
Lemma YearFromDay_spec (d : Z) :
  DayFromYear (YearFromDay d) <= d < DayFromYear (YearFromDay d + 1).
Proof.
  unfold YearFromDay.
  set (y := 1970 + 400 * d / 146097).
  assert (DayFromYear (y - 1) <= d < DayFromYear (y + 2)) as Hb.
  { unfold DayFromYear. subst y. div_lia. }
  destruct (DayFromYear (y + 1) <=? d) eqn:H1;
    [apply Z.leb_le in H1|apply Z.leb_gt in H1].
  - replace (y + 1 + 1) with (y + 2) by lia. lia.
  - destruct (DayFromYear y <=? d) eqn:H2;
      [apply Z.leb_le in H2|apply Z.leb_gt in H2].
    + lia.
    + replace (y - 1 + 1) with y by lia. lia.
Qed.

Lemma DayFromYear_mono (y y' : Z) : y <= y' → DayFromYear y <= DayFromYear y'.
Proof. unfold DayFromYear. div_lia. Qed.

Lemma YearFromDay_unique (d y : Z) :
  DayFromYear y <= d < DayFromYear (y + 1) → YearFromDay d = y.
Proof.
  intros Hy. pose proof (YearFromDay_spec d) as Hs.
  destruct (Z.lt_trichotomy (YearFromDay d) y) as [Hlt|[Heq|Hgt]]; [|done|].
  - pose proof (DayFromYear_mono (YearFromDay d + 1) y ltac:(lia)). lia.
  - pose proof (DayFromYear_mono (y + 1) (YearFromDay d) ltac:(lia)). lia.
Qed.

Lemma DayWithinYear_range (t : Z) :
  0 <= DayWithinYear t < DaysInYear (YearFromTime t).
Proof.
  unfold DayWithinYear, YearFromTime.
  pose proof (YearFromDay_spec (Day t)) as Hs.
  rewrite DayFromYear_succ in Hs. lia.
Qed.

Lemma MonthFromTime_range (t : Z) : 0 <= MonthFromTime t <= 11.
Proof.
  unfold MonthFromTime.
  repeat (match goal with
          | |- context [(?a <? ?b)] => destruct (Z.ltb_spec a b)
          end); lia.
Qed.

(** The calendar fields of a time value give its day number back. *)
Lemma MakeDay_fields (t : Z) :
  MakeDay (YearFromTime t) (MonthFromTime t) (DateFromTime t) = Day t.
Proof.
  pose proof (MonthFromTime_range t) as Hm.
  unfold MakeDay. rewrite Z.div_small, Z.mod_small, Z.add_0_r by lia.
  unfold DateFromTime, InLeapYear, DayWithinYear. lia.
Qed.

Lemma DateFromTime_range (t : Z) : 1 <= DateFromTime t <= 31.
Proof.
  pose proof (DayWithinYear_range t) as Hr.
  unfold DateFromTime, MonthFromTime, InLeapYear in *.
  set (y := YearFromTime t) in *. set (d := DayWithinYear t) in *.
  destruct (DaysInYear_cases y) as [Hy|Hy]; rewrite Hy in *; simpl (_ =? 366).
  all: repeat (match goal with
               | |- context [(?a <? ?b)] => destruct (Z.ltb_spec a b)
               end); simpl; lia.
Qed.

(** [Date.UTC] of the calendar fields of a time value is the start of its
    day, for years that [Date.UTC] does not read as two-digit years. *)
Lemma UTC_fields (t : Z) :
  100 <= YearFromTime t → t <= 8640000000000000 →
  UTC (Some (YearFromTime t)) (Some (MonthFromTime t)) (Some (DateFromTime t))
  = Some (Day t * msPerDay).
Proof.
  intros Hy Ht. unfold UTC.
  destruct (Z.leb_spec (YearFromTime t) 99) as [|_]; [lia|].
  rewrite andb_false_r, MakeDay_fields.
  unfold MakeDate, TimeClip. rewrite Z.add_0_r.
  pose proof (YearFromDay_spec (Day t)) as [Hlo _].
  pose proof (DayFromYear_mono 100 (YearFromTime t) Hy) as Hmono.
  fold (YearFromTime t) in Hlo.
  assert (DayFromYear 100 = -683003) as H100 by reflexivity.
  assert (Day t * msPerDay <= t) as Hle.
  { unfold Day, msPerDay. div_lia. }
  destruct (Z.leb_spec (Z.abs (Day t * msPerDay)) 8640000000000000) as [|Hgt];
    [done|].
  unfold msPerDay in *. lia.
Qed.

(** [daysBetween] is the difference of the day numbers of the two dates in
    local time. *)
Lemma daysBetween_local_days (LocalTZA : Z → Z) (s e : Z) :
  100 <= YearFromTime (LocalTime LocalTZA s) →
  100 <= YearFromTime (LocalTime LocalTZA e) →
  LocalTime LocalTZA s <= 8640000000000000 →
  LocalTime LocalTZA e <= 8640000000000000 →
  daysBetween LocalTZA (Some s) (Some e)
  = Some (Day (LocalTime LocalTZA e) - Day (LocalTime LocalTZA s)).
Proof.
  intros Hys Hye Hs He. unfold daysBetween, getFullYear, getMonth, getDate.
  rewrite !UTC_fields by done. f_equal.
  rewrite <- Z.mul_sub_distr_r. apply Z.div_mul. done.
Qed.

(** A date string that parses stands for the start of a day in UTC. *)
Lemma parse_midnight (s : string) (t : Z) :
  parse s = Some t → t = Day t * msPerDay.
Proof.
  unfold parse.
  do 10 (destruct s as [|? s]; [discriminate|]).
  destruct s; [|discriminate].
  repeat (match goal with
          | |- context [twoDigits ?a ?b] => destruct (twoDigits a b); [|discriminate]
          end).
  match goal with |- context [if ?c then _ else _] => destruct c; [|discriminate] end.
  unfold TimeClip, MakeDate.
  match goal with |- context [if ?c then _ else _] => destruct c; [|discriminate] end.
  intros [= <-]. unfold Day. rewrite Z.add_0_r, Z.div_mul by done. reflexivity.
Qed.

(** East of UTC, by less than a day: the days left are the days from the
    local date of [now] to the date of the string. *)
Lemma daysBetween_east (LocalTZA : Z → Z) (now : Z) (s : string) (t : Z) :
  parse s = Some t →
  0 <= LocalTZA t < msPerDay →
  100 <= YearFromTime (LocalTime LocalTZA now) →
  100 <= YearFromTime (LocalTime LocalTZA t) →
  LocalTime LocalTZA now <= 8640000000000000 →
  LocalTime LocalTZA t <= 8640000000000000 →
  daysBetween LocalTZA (Some now) (parse s)
  = Some (Day t - Day (LocalTime LocalTZA now)).
Proof.
  intros Hs Htz Hyn Hyt Hn Ht. rewrite Hs, daysBetween_local_days by done.
  apply parse_midnight in Hs. do 2 f_equal.
  unfold LocalTime. rewrite Hs at 1.
  unfold Day at 1. rewrite Z.div_add_l by done.
  rewrite (Z.div_small (LocalTZA t)) by done. lia.
Qed.

(** West of UTC, by at most a day: midnight UTC of the date of the string
    is still the day before in local time, and the days left are one less
    than the days from the local date of [now] to the date of the
    string. *)
Lemma daysBetween_west (LocalTZA : Z → Z) (now : Z) (s : string) (t : Z) :
  parse s = Some t →
  - msPerDay <= LocalTZA t < 0 →
  100 <= YearFromTime (LocalTime LocalTZA now) →
  100 <= YearFromTime (LocalTime LocalTZA t) →
  LocalTime LocalTZA now <= 8640000000000000 →
  LocalTime LocalTZA t <= 8640000000000000 →
  daysBetween LocalTZA (Some now) (parse s)
  = Some (Day t - 1 - Day (LocalTime LocalTZA now)).
Proof.
  intros Hs Htz Hyn Hyt Hn Ht. rewrite Hs, daysBetween_local_days by done.
  apply parse_midnight in Hs. do 2 f_equal.
  unfold LocalTime. rewrite Hs at 1.
  unfold Day at 1. rewrite Z.div_add_l by done.
  assert (LocalTZA t / msPerDay = -1) as ->; [|lia].
  unfold msPerDay in *. div_lia.
Qed.

End Calendar.

(** * Items that expire soon *)

Lemma truthy_nonempty (s : string) : truthy s = true ↔ s ≠ EmptyString.
Proof. destruct s; simpl; split; congruence. Qed.

Lemma hasExpirationDate_Some (it : Item.t) :
  hasExpirationDate it ↔ ∃ s, Item.expirationDate it = Some s ∧ s ≠ EmptyString.
Proof.
  unfold hasExpirationDate. destruct (Item.expirationDate it) as [s|].
  - rewrite truthy_nonempty. split; [eauto|]. intros (s' & [= ->] & H). exact H.
  - split; [intros []|]. intros (s & [=] & _).
Qed.

(** What the list of soon expiring items holds: the items with an
    expiration date for which [daysBetween] gives a number of at most 5,
    each with that number. *)
Lemma getSoonExpiringItems_elem_of LocalTZA now inventory (entry : Expiring) :
  entry ∈ getSoonExpiringItems LocalTZA now inventory ↔
  item entry ∈ inventory
  ∧ (∃ s, Item.expirationDate (item entry) = Some s ∧ s ≠ EmptyString
          ∧ daysLeft entry = daysBetween LocalTZA (Some now) (JSDate.parse s))
  ∧ ∃ d, daysLeft entry = Some d ∧ (d ≤ 5)%Z.
Proof.
  unfold getSoonExpiringItems.
  rewrite list_elem_of_filter, list_elem_of_fmap.
  unfold withinFiveDays. split.
  - intros (Hwithin & it & Hentry & (Hhas & Hin)%list_elem_of_filter).
    apply hasExpirationDate_Some in Hhas as (s & Hs & Hne).
    split_and!.
    + subst entry. exact Hin.
    + exists s. subst entry. cbn [item daysLeft].
      split; [exact Hs|]. split; [exact Hne|]. rewrite Hs. reflexivity.
    + destruct (daysLeft entry) as [d|]; [|destruct Hwithin].
      exists d. split; [reflexivity|exact Hwithin].
  - intros (Hin & (s & Hs & Hne & Hd) & (d & Hd' & Hle)). split.
    + rewrite Hd'. exact Hle.
    + exists (item entry). split.
      * destruct entry as [it dl]. cbn [item daysLeft] in *.
        rewrite Hs, <- Hd. reflexivity.
      * apply list_elem_of_filter. split; [|exact Hin].
        apply hasExpirationDate_Some. exists s. split; assumption.
Qed.

Lemma getSoonExpiringItems_order LocalTZA now inventory :
  sublist (item <$> getSoonExpiringItems LocalTZA now inventory) inventory.
Proof.
  unfold getSoonExpiringItems.
  etrans; [apply fmap_sublist, sublist_filter|].
  rewrite <- list_fmap_compose.
  erewrite (list_fmap_ext _ id); [|intros i x _; reflexivity].
  rewrite list_fmap_id. apply sublist_filter.
Qed.

(** East of UTC an item is listed exactly when its date is at most five
    days after the local date of [now]. *)
Lemma getSoonExpiringItems_east (LocalTZA : Z → Z) (now : Z)
    (inventory : list Item.t) (it : Item.t) (s : string) (t : Z) :
  it ∈ inventory →
  Item.expirationDate it = Some s →
  JSDate.parse s = Some t →
  (0 ≤ LocalTZA t < JSDate.msPerDay)%Z →
  (100 ≤ JSDate.YearFromTime (JSDate.LocalTime LocalTZA now))%Z →
  (100 ≤ JSDate.YearFromTime (JSDate.LocalTime LocalTZA t))%Z →
  (JSDate.LocalTime LocalTZA now ≤ 8640000000000000)%Z →
  (JSDate.LocalTime LocalTZA t ≤ 8640000000000000)%Z →
  let days := (JSDate.Day t - JSDate.Day (JSDate.LocalTime LocalTZA now))%Z in
  {| item := it; daysLeft := Some days |}
    ∈ getSoonExpiringItems LocalTZA now inventory
  ↔ (days ≤ 5)%Z.
Proof.
  intros Hin Hs Ht Htz Hyn Hyt Hn Hl days.
  rewrite getSoonExpiringItems_elem_of. cbn [item daysLeft].
  pose proof (Calendar.daysBetween_east LocalTZA now s t Ht Htz Hyn Hyt Hn Hl)
    as Hd.
  split.
  - intros (_ & _ & d & [= <-] & Hle). exact Hle.
  - intros Hle. split_and!; [done| |by exists days].
    exists s. split_and!; [done| |by rewrite Hd].
    intros ->. discriminate Ht.
Qed.

(** West of UTC an item whose date is six days after the local date of
    [now] is listed, with five days left. *)
Lemma getSoonExpiringItems_west (LocalTZA : Z → Z) (now : Z)
    (inventory : list Item.t) (it : Item.t) (s : string) (t : Z) :
  it ∈ inventory →
  Item.expirationDate it = Some s →
  JSDate.parse s = Some t →
  (- JSDate.msPerDay ≤ LocalTZA t < 0)%Z →
  (100 ≤ JSDate.YearFromTime (JSDate.LocalTime LocalTZA now))%Z →
  (100 ≤ JSDate.YearFromTime (JSDate.LocalTime LocalTZA t))%Z →
  (JSDate.LocalTime LocalTZA now ≤ 8640000000000000)%Z →
  (JSDate.LocalTime LocalTZA t ≤ 8640000000000000)%Z →
  (JSDate.Day t - JSDate.Day (JSDate.LocalTime LocalTZA now) = 6)%Z →
  {| item := it; daysLeft := Some 5%Z |}
    ∈ getSoonExpiringItems LocalTZA now inventory.
Proof.
  intros Hin Hs Ht Htz Hyn Hyt Hn Hl Hsix.
  rewrite getSoonExpiringItems_elem_of. cbn [item daysLeft].
  pose proof (Calendar.daysBetween_west LocalTZA now s t Ht Htz Hyn Hyt Hn Hl)
    as Hd.
  split_and!; [done| |by exists 5%Z].
  exists s. split_and!; [done| |].
  - intros ->. discriminate Ht.
  - rewrite Hd. f_equal. lia.
Qed.

(** C3, where the code departs from it: five hours west of UTC, at noon
    of 4 May 2024 local time, an item that expires on 10 May is six
    calendar days away, in local time as in UTC; [new Date] reads the date
    as midnight UTC, which is still 9 May in local time, so the item is
    listed with five days left. *)
Theorem getSoonExpiringItems_west_of_UTC :
  let now := Sample.noonMay4 in
  let tz := Sample.fiveHoursWest in
  (JSDate.getFullYear tz (Some now), JSDate.getMonth tz (Some now),
   JSDate.getDate tz (Some now)) = (Some 2024, Some 4, Some 4)%Z
  ∧ (JSDate.YearFromTime now, JSDate.MonthFromTime now, JSDate.DateFromTime now)
    = (2024, 4, 4)%Z
  ∧ JSDate.parse "2024-05-10" = JSDate.UTC (Some 2024%Z) (Some 4%Z) (Some 10%Z)
  ∧ (JSDate.MakeDay 2024 4 10 - JSDate.MakeDay 2024 4 4 = 6)%Z
  ∧ getSoonExpiringItems tz now [Sample.milk "2024-05-10"]
    = [ {| item := Sample.milk "2024-05-10"; daysLeft := Some 5%Z |} ].
Proof. split_and!; vm_compute; reflexivity. Qed.

Example getSoonExpiringItems_at_UTC :
  getSoonExpiringItems (λ _, 0%Z) Sample.noonMay4
    [Sample.milk "2024-05-09"; Sample.milk "2024-05-10"; Sample.milk "2024-05-01"]
  = [ {| item := Sample.milk "2024-05-09"; daysLeft := Some 5%Z |};
      {| item := Sample.milk "2024-05-01"; daysLeft := Some (-3)%Z |} ].
Proof. vm_compute. reflexivity. Qed.

(** * Start-up *)

(** C9: when the stored inventory does not parse, the exception is caught
    and the load ends normally with the empty list. *)
Theorem loadInventory_malformed (storage : gmap string string) stored e :
  storage !! "inventory" = Some stored →
  JSON.parse stored = Throw e →
  loadInventory storage = Normal (JSON.JArray []).
Proof.
  intros Hstored Hparse. unfold loadInventory. rewrite Hstored.
  destruct (truthy stored); [|done]. by rewrite Hparse.
Qed.

Lemma loadInventory_malformed_witness :
  loadInventory {[ "inventory" := "{oops" ]} = Normal (JSON.JArray []).
Proof.
  apply (loadInventory_malformed {[ "inventory" := "{oops" ]} "{oops" SyntaxError).
  - reflexivity.
  - vm_compute. reflexivity.
Defined.

(** The load never ends in an exception. *)
Lemma loadInventory_total (storage : gmap string string) :
  ∃ v, loadInventory storage = Normal v.
Proof.
  unfold loadInventory. destruct (storage !! "inventory") as [stored|]; [|by eexists].
  destruct (truthy stored); [|by eexists].
  destruct (JSON.parse stored); by eexists.
Qed.

(** * Add *)

(** C10: with a name that is empty once trimmed, submitting the form
    changes neither the inventory nor the storage; otherwise it appends
    one item with the trimmed name, no barcode, the number [parseInt]
    reads from the quantity field (0 when it reads none), and no
    expiration date when the date field is empty, and saves. *)
Theorem addSubmit_spec (form : AddForm) (newId : string) (st : State) :
  (trim (formName form) = EmptyString → addSubmit form newId st = st)
  ∧ (trim (formName form) ≠ EmptyString →
     ∃ item,
       inventory (addSubmit form newId st) = inventory st ++ [item]
       ∧ Item.id item = newId
       ∧ Item.name item = trim (formName form)
       ∧ Item.barcode item = None
       ∧ Item.quantity item = default 0%Z (parseInt (formQuantity form))
       ∧ (formExpirationDate form = EmptyString → Item.expirationDate item = None)
       ∧ (formExpirationDate form ≠ EmptyString →
          Item.expirationDate item = Some (formExpirationDate form))
       ∧ (Item.regular item = true ↔ formRegular form = Some "on")
       ∧ localStorage (addSubmit form newId st)
         = <["inventory" := Persist.stringify (inventory st ++ [item])]>
             (localStorage st)).
Proof.
  unfold addSubmit. split.
  - intros ->. reflexivity.
  - intros Hname.
    destruct (truthy (trim (formName form))) eqn:Htruthy.
    2:{ destruct (trim (formName form)); [done|discriminate]. }
    cbn [negb]. unfold saveInventory. cbn [inventory localStorage].
    eexists. split; [reflexivity|]. cbn [Item.id Item.name Item.barcode Item.quantity Item.expirationDate Item.regular].
    split_and!; try reflexivity.
    + intros ->. reflexivity.
    + intros Hd. destruct (formExpirationDate form); [done|reflexivity].
    + apply bool_decide_eq_true.
Qed.

(** * Persistence *)

Module PersistProofs.
Import JSON Persist.

#[local] Arguments String.append !_ _ / : simpl nomatch.

Lemma append_assoc (a b c : string) : ((a ++ b) ++ c = a ++ (b ++ c))%string.
Proof. induction a as [|x a IH]; simpl; [done|]. by rewrite IH. Qed.

Lemma length_append (a b : string) :
  String.length (a ++ b)%string = (String.length a + String.length b)%nat.
Proof. induction a as [|x a IH]; simpl; [done|]. by rewrite IH. Qed.

(** ** Strings *)

Lemma readString_quoteChar (c : ascii) (t : string) :
  readString (quoteChar c ++ t)%string
  = match readString t with
    | Some (u, rest) => Some (String c u, rest)
    | None => None
    end.
Proof. destruct c as [[] [] [] [] [] [] [] []]; reflexivity. Qed.

Lemma readString_quoteChars (s rest : string) :
  readString (quoteChars s ++ String dquote rest)%string = Some (s, rest).
Proof.
  induction s as [|c s IH]; simpl.
  - reflexivity.
  - by rewrite append_assoc, readString_quoteChar, IH.
Qed.

Lemma quoteJSONString_append (s rest : string) :
  (quoteJSONString s ++ rest)%string
  = String dquote (quoteChars s ++ String dquote rest)%string.
Proof. unfold quoteJSONString. simpl. by rewrite append_assoc. Qed.

Lemma readValue_string (fuel : nat) (s rest : string) :
  readValue (S fuel) (quoteJSONString s ++ rest)%string = Some (JString s, rest).
Proof.
  rewrite quoteJSONString_append. simpl.
  by rewrite readString_quoteChars.
Qed.

(** ** Numbers *)

#[local] Arguments digitChar : simpl never.

Ltac digit_cases d :=
  let E := fresh in
  assert (d = 0 ∨ d = 1 ∨ d = 2 ∨ d = 3 ∨ d = 4 ∨ d = 5 ∨ d = 6 ∨ d = 7
          ∨ d = 8 ∨ d = 9)%Z as E by lia;
  repeat destruct E as [->|E]; [..|subst d].

Lemma digitChar_spec (d : Z) :
  (0 ≤ d ≤ 9)%Z →
  isDigit (digitChar d) = true ∧ digitValue (digitChar d) = d.
Proof. intros H. digit_cases d; by split. Qed.

Lemma digitChar_nonzero (d : Z) :
  (1 ≤ d ≤ 9)%Z → digitChar d ≠ "0"%char.
Proof. intros H. digit_cases d; (lia || done). Qed.

Lemma digitsOf_append (fuel : nat) (n : Z) (tail r : string) :
  (digitsOf fuel n tail ++ r)%string = digitsOf fuel n (tail ++ r)%string.
Proof.
  revert n tail. induction fuel as [|fuel IH]; intros n tail; simpl; [done|].
  destruct (n <? 10)%Z; [done|]. by rewrite IH.
Qed.

Lemma pow2_halves (fuel : nat) (n : Z) :
  (10 ≤ n < 2 ^ (Z.of_nat (S fuel) + 1))%Z →
  (1 ≤ n / 10 < 2 ^ (Z.of_nat fuel + 1))%Z.
Proof.
  intros [Hlo Hhi].
  rewrite Nat2Z.inj_succ, <- Z.add_1_r in Hhi.
  replace (Z.of_nat fuel + 1 + 1)%Z with (Z.succ (Z.of_nat fuel + 1)) in Hhi by lia.
  rewrite Z.pow_succ_r in Hhi by lia.
  split.
  - apply Z.div_le_lower_bound; lia.
  - apply Z.div_lt_upper_bound; lia.
Qed.

(** The head of the digits of a number: a digit, and not 0 unless the
    number is. *)
Lemma digitsOf_head (fuel : nat) :
  ∀ (n : Z) (tail : string),
    (0 ≤ n < 2 ^ (Z.of_nat fuel + 1))%Z →
    ∃ d t, digitsOf fuel n tail = String (digitChar d) t
           ∧ (0 ≤ d ≤ 9)%Z ∧ (1 ≤ n → 1 ≤ d)%Z.
Proof.
  induction fuel as [|fuel IH]; intros n tail Hn.
  - exists n, tail. simpl in *. split_and!; (done || lia).
  - simpl digitsOf. destruct (n <? 10)%Z eqn:Hlt.
    + apply Z.ltb_lt in Hlt. exists n, tail. split_and!; (done || lia).
    + apply Z.ltb_ge in Hlt.
      destruct (pow2_halves fuel n ltac:(lia)) as [H1 H2].
      destruct (IH (n / 10)%Z (String (digitChar (n mod 10)) tail) ltac:(lia))
        as (d & t & Heq & Hd & Hpos).
      exists d, t. split_and!; (exact Heq || lia).
Qed.

(** Reading back the digits of a number continues after them with the
    number added to the accumulator. *)
Lemma readDigits_digitsOf (fuel : nat) :
  ∀ (n : Z) (tail : string) (acc : Z) (cnt : nat),
    (0 ≤ n < 2 ^ (Z.of_nat fuel + 1))%Z →
    ∃ k, readDigits (digitsOf fuel n tail) acc cnt
         = readDigits tail (acc * 10 ^ Z.of_nat (S k) + n)%Z (cnt + S k)%nat.
Proof.
  assert (Hone : ∀ n tail acc cnt, (0 ≤ n ≤ 9)%Z →
    readDigits (String (digitChar n) tail) acc cnt
    = readDigits tail (acc * 10 ^ Z.of_nat 1 + n)%Z (cnt + 1)%nat).
  { intros n tail acc cnt Hn. destruct (digitChar_spec n Hn) as [Hd Hv].
    cbn [readDigits]. rewrite Hd, Hv. f_equal; lia. }
  induction fuel as [|fuel IH]; intros n tail acc cnt Hn.
  - exists 0%nat. simpl in Hn. apply Hone. lia.
  - simpl digitsOf. destruct (n <? 10)%Z eqn:Hlt.
    + apply Z.ltb_lt in Hlt. exists 0%nat. apply Hone. lia.
    + apply Z.ltb_ge in Hlt.
      destruct (pow2_halves fuel n ltac:(lia)) as [H1 H2].
      destruct (IH (n / 10)%Z (String (digitChar (n mod 10)) tail) acc cnt
                  ltac:(lia)) as [k Hk].
      pose proof (Z.mod_pos_bound n 10 ltac:(lia)) as Hmod.
      exists (S k). rewrite Hk, Hone by lia.
      f_equal; [|lia].
      rewrite (Nat2Z.inj_succ (S k)), Z.pow_succ_r by lia.
      pose proof (Z.div_mod n 10 ltac:(lia)). lia.
Qed.

Lemma digitsOf_fuel (n : Z) :
  (0 ≤ n)%Z → (0 ≤ n < 2 ^ (Z.of_nat (Z.to_nat (Z.log2 n)) + 1))%Z.
Proof.
  intros Hn. split; [done|].
  rewrite Z2Nat.id by apply Z.log2_nonneg.
  destruct (decide (n = 0%Z)) as [->|Hne]; [done|].
  apply Z.log2_spec. lia.
Qed.

Lemma readInt_head (c : ascii) (t : string) :
  c ≠ "0"%char →
  readInt (String c t)
  = match readDigits (String c t) 0%Z 0%nat with
    | (_, O, _) => None
    | (n, _, r) => Some (n, r)
    end.
Proof.
  intros Hc. destruct c as [[] [] [] [] [] [] [] []]; try reflexivity.
  by destruct Hc.
Qed.

(** The integer part of a number that a comma follows. *)
Lemma readInt_digitsOf (fuel : nat) (n : Z) (r : string) :
  (0 ≤ n < 2 ^ (Z.of_nat fuel + 1))%Z →
  readInt (digitsOf fuel n (String "," r)) = Some (n, String "," r).
Proof.
  intros Hn.
  destruct (digitsOf_head fuel n (String "," r) Hn) as (d & t & Heq & Hd & Hpos).
  destruct (decide (n = 0%Z)) as [->|Hne].
  - by destruct fuel.
  - rewrite Heq, readInt_head by (apply digitChar_nonzero; lia).
    rewrite <- Heq.
    destruct (readDigits_digitsOf fuel n (String "," r) 0%Z 0%nat Hn) as [k ->].
    simpl. reflexivity.
Qed.

Lemma readUnsigned_digitsOf (sign : Z) (fuel : nat) (n : Z) (r : string) :
  (0 ≤ n < 2 ^ (Z.of_nat fuel + 1))%Z →
  readUnsigned sign (digitsOf fuel n (String "," r))
  = Some (inject_Z (sign * n), String "," r).
Proof. intros Hn. unfold readUnsigned. by rewrite readInt_digitsOf. Qed.

Lemma readNumber_digit (c : ascii) (t : string) :
  isDigit c = true → readNumber (String c t) = readUnsigned 1 (String c t).
Proof.
  destruct c as [[] [] [] [] [] [] [] []]; intros H; try reflexivity;
    discriminate H.
Qed.

Lemma readValue_digit (fuel : nat) (c : ascii) (t : string) :
  isDigit c = true ∨ c = "-"%char →
  readValue (S fuel) (String c t)
  = match readNumber (String c t) with
    | Some (q, rest) => Some (JNumber q, rest)
    | None => None
    end.
Proof.
  destruct c as [[] [] [] [] [] [] [] []]; intros [H|H]; try reflexivity;
    discriminate H.
Qed.

(** [JSON.parse] reads the text of an integer back as that integer. *)
Lemma readValue_integer (fuel : nat) (z : Z) (r : string) :
  readValue (S fuel) (integerToString z ++ String "," r)%string
  = Some (JNumber (inject_Z z), String "," r).
Proof.
  unfold integerToString. destruct (z <? 0)%Z eqn:Hz.
  - apply Z.ltb_lt in Hz. simpl String.append. rewrite digitsOf_append.
    rewrite readValue_digit by by right.
    change (readNumber (String "-" ?s)) with (readUnsigned (-1) s).
    simpl String.append.
    rewrite readUnsigned_digitsOf by (apply digitsOf_fuel; lia).
    by replace (-1 * - z)%Z with z by lia.
  - apply Z.ltb_ge in Hz. rewrite digitsOf_append. simpl String.append.
    pose proof (digitsOf_fuel z Hz) as Hfuel.
    destruct (digitsOf_head _ z (String "," r) Hfuel) as (d & t & Heq & Hd & _).
    destruct (digitChar_spec d Hd) as [Hdigit _].
    rewrite Heq, readValue_digit, readNumber_digit by auto.
    rewrite <- Heq, readUnsigned_digitsOf by done.
    by replace (1 * z)%Z with z by lia.
Qed.

(** ** Literals *)

Lemma readValue_bool (fuel : nat) (b : bool) (r : string) :
  readValue (S fuel) ((if b then "true" else "false") ++ r)%string
  = Some (JBool b, r).
Proof. by destruct b. Qed.

Lemma readValue_option (fuel : nat) (o : option string) (r : string) :
  readValue (S fuel) (stringifyOption o ++ r)%string = Some (optionValue o, r).
Proof. destruct o as [s|]; [apply readValue_string|reflexivity]. Qed.

(** ** Objects and arrays *)

#[local] Arguments quoteJSONString : simpl never.

Lemma readValue_object (fuel : nat) (key r : string) :
  readValue (S fuel) (String "{" (quoteJSONString key ++ r))
  = readMembers fuel (quoteJSONString key ++ r)%string [].
Proof. reflexivity. Qed.

Lemma readMembers_comma (fuel : nat) key v (tail r : string) acc :
  readValue fuel tail = Some (v, String "," r) →
  readMembers (S fuel) (quoteJSONString key ++ String ":" tail) acc
  = readMembers fuel r (setProperty key v acc).
Proof.
  intros Hv. rewrite quoteJSONString_append. cbn [readMembers].
  change (skipSpace (String dquote ?s)) with (String dquote s).
  change (code dquote =? 34)%N with true. cbv iota.
  rewrite readString_quoteChars.
  change (skipSpace (String ":" tail)) with (String ":" tail). cbv iota.
  rewrite Hv. reflexivity.
Qed.

Lemma readMembers_close (fuel : nat) key v (tail r : string) acc :
  readValue fuel tail = Some (v, String "}" r) →
  readMembers (S fuel) (quoteJSONString key ++ String ":" tail) acc
  = Some (JObject (setProperty key v acc), r).
Proof.
  intros Hv. rewrite quoteJSONString_append. cbn [readMembers].
  change (skipSpace (String dquote ?s)) with (String dquote s).
  change (code dquote =? 34)%N with true. cbv iota.
  rewrite readString_quoteChars.
  change (skipSpace (String ":" tail)) with (String ":" tail). cbv iota.
  rewrite Hv. reflexivity.
Qed.

(** [JSON.parse] reads the text of an item back as the item. *)
Lemma readValue_item (fuel : nat) (item : Item.t) (rest : string) :
  readValue (S (S (S (S (S (S (S (S fuel))))))))
            (stringifyItem item ++ rest)%string
  = Some (itemValue item, rest).
Proof.
  unfold stringifyItem. rewrite !append_assoc. cbn [String.append].
  rewrite readValue_object.
  erewrite readMembers_comma; [|apply readValue_string].
  erewrite readMembers_comma; [|apply readValue_string].
  erewrite readMembers_comma; [|apply readValue_integer].
  erewrite readMembers_comma; [|apply readValue_option].
  erewrite readMembers_comma; [|apply readValue_option].
  erewrite readMembers_close; [|apply readValue_bool].
  reflexivity.
Qed.

Lemma readElements_last (fuel : nat) (s rest : string) v acc :
  readValue fuel s = Some (v, String "]" rest) →
  readElements (S fuel) s acc = Some (JArray (acc ++ [v]), rest).
Proof. intros Hv. cbn [readElements]. rewrite Hv. reflexivity. Qed.

Lemma readElements_next (fuel : nat) (s rest : string) v acc :
  readValue fuel s = Some (v, String "," rest) →
  readElements (S fuel) s acc = readElements fuel rest (acc ++ [v]).
Proof. intros Hv. cbn [readElements]. rewrite Hv. reflexivity. Qed.

Lemma readValue_item_fuel (fuel : nat) (item : Item.t) (rest : string) :
  (8 ≤ fuel)%nat →
  readValue fuel (stringifyItem item ++ rest)%string
  = Some (itemValue item, rest).
Proof.
  intros Hfuel. replace fuel with (8 + (fuel - 8))%nat by lia.
  apply readValue_item.
Qed.

(** The elements of a non-empty array of items, up to the closing
    bracket. *)
Lemma readElements_items (items : list Item.t) :
  ∀ (first : Item.t) (fuel : nat) (rest : string) (acc : list value),
    (length items + 9 ≤ fuel)%nat →
    readElements fuel (stringifyItems (first :: items) ++ String "]" rest) acc
    = Some (JArray (acc ++ map itemValue (first :: items)), rest).
Proof.
  induction items as [|second items IH]; intros first fuel rest acc Hfuel.
  - destruct fuel as [|fuel]; [simpl in Hfuel; lia|].
    apply readElements_last. apply readValue_item_fuel. simpl in Hfuel. lia.
  - destruct fuel as [|fuel]; [simpl in Hfuel; lia|].
    change (stringifyItems (first :: second :: items))
      with (stringifyItem first ++ "," ++ stringifyItems (second :: items))%string.
    rewrite !append_assoc. cbn [String.append].
    erewrite readElements_next;
      [|apply readValue_item_fuel; simpl in Hfuel; lia].
    rewrite IH by (simpl in *; lia).
    by rewrite <- app_assoc.
Qed.

Lemma stringifyItem_length (item : Item.t) :
  (9 ≤ String.length (stringifyItem item))%nat.
Proof.
  unfold stringifyItem. rewrite !length_append.
  change (String.length "{") with 1%nat.
  change (String.length ":") with 1%nat.
  change (String.length ",") with 1%nat.
  change (String.length "}") with 1%nat.
  lia.
Qed.

Lemma stringifyItems_length (items : list Item.t) :
  (9 * length items ≤ String.length (stringifyItems items))%nat.
Proof.
  induction items as [|first [|second items] IH].
  - simpl. lia.
  - pose proof (stringifyItem_length first).
    change (stringifyItems [first]) with (stringifyItem first).
    simpl length. lia.
  - change (stringifyItems (first :: second :: items))
      with (stringifyItem first ++ "," ++ stringifyItems (second :: items))%string.
    rewrite !length_append.
    pose proof (stringifyItem_length first).
    simpl length in *. lia.
Qed.

(** [JSON.parse] of [JSON.stringify] of an inventory is the inventory. *)
Lemma parse_stringify (inventory : list Item.t) :
  parse (stringify inventory) = Normal (inventoryValue inventory).
Proof.
  destruct inventory as [|first items]; [reflexivity|].
  unfold parse, stringify, inventoryValue.
  pose proof (stringifyItems_length (first :: items)) as Hlen.
  cbn [String.append String.length].
  rewrite length_append. cbn [String.append String.length].
  set (fuel := (String.length (stringifyItems (first :: items)) + 1)%nat).
  assert (readValue (S (S fuel))
            (String "[" (stringifyItems (first :: items) ++ "]"))
          = readElements (S fuel)
              (stringifyItems (first :: items) ++ String "]" EmptyString) []) as ->.
  { destruct items as [|second items].
    - change (stringifyItems [first]) with (stringifyItem first).
      unfold stringifyItem. rewrite !append_assoc. reflexivity.
    - change (stringifyItems (first :: second :: items))
        with (stringifyItem first ++ "," ++ stringifyItems (second :: items))%string.
      unfold stringifyItem. rewrite !append_assoc. reflexivity. }
  rewrite readElements_items by (subst fuel; simpl length in *; lia).
  reflexivity.
Qed.

(** The value of an inventory reads back as the same list of items: two
    inventories with the same value are equal. *)
Lemma itemOfValue_itemValue (item : Item.t) :
  itemOfValue (itemValue item) = Some item.
Proof.
  destruct item as [i n q [e|] [b|] r]; reflexivity.
Qed.

Lemma itemsOfValue_inventoryValue (inventory : list Item.t) :
  itemsOfValue (inventoryValue inventory) = Some inventory.
Proof.
  unfold itemsOfValue, inventoryValue.
  induction inventory as [|item items IH]; [reflexivity|].
  cbn [map mapM]. rewrite itemOfValue_itemValue. cbn. rewrite IH. reflexivity.
Qed.

End PersistProofs.

(** C8: saving the inventory and loading it again, as at start-up, gives
    the value of the inventory that was saved, from which the list of
    items is read back unchanged. *)
Theorem save_then_load (st : State) :
  loadInventory (localStorage (saveInventory st))
  = Normal (Persist.inventoryValue (inventory st))
  ∧ Persist.itemsOfValue (Persist.inventoryValue (inventory st))
    = Some (inventory st).
Proof.
  split; [|apply PersistProofs.itemsOfValue_inventoryValue].
  unfold loadInventory, saveInventory. cbn [localStorage inventory].
  rewrite lookup_insert_eq.
  change (truthy (Persist.stringify (inventory st))) with true. cbv iota.
  rewrite PersistProofs.parse_stringify. reflexivity.
Qed.

Example save_then_load_sample :
  loadInventory (localStorage (saveInventory Sample.state))
  = Normal (Persist.inventoryValue Sample.pantry).
Proof. vm_compute. reflexivity. Qed.

(** * Letter case *)

Lemma toLowerChar_idempotent (c : ascii) :
  toLowerChar (toLowerChar c) = toLowerChar c.
Proof. destruct c as [[] [] [] [] [] [] [] []]; reflexivity. Qed.

Lemma toLowerCase_idempotent (s : string) :
  toLowerCase (toLowerCase s) = toLowerCase s.
Proof.
  induction s as [|c s IH]; [reflexivity|].
  cbn [toLowerCase]. by rewrite toLowerChar_idempotent, IH.
Qed.

(** A string with a capital letter is not the lowercase form of any
    string. *)
Lemma toLowerCase_not_capital (s key : string) :
  toLowerCase key ≠ key → toLowerCase s ≠ key.
Proof. intros Hkey Hs. apply Hkey. by rewrite <- Hs, toLowerCase_idempotent. Qed.

(** * The price look-up on every name *)

Lemma getProperty_cases (key : string) :
  toLowerCase key = key →
  (∃ list, priceData !! key = Some list ∧ getProperty key = Some (PriceList list))
  ∨ (priceData !! key = None ∧ key = "constructor"
     ∧ getProperty key = Some (BuiltinFunction 1))
  ∨ (priceData !! key = None ∧ key = "__proto__"
     ∧ getProperty key = Some PrototypeObject)
  ∨ (priceData !! key = None ∧ key ≠ "constructor" ∧ key ≠ "__proto__"
     ∧ getProperty key = None).
Proof.
  intros Hkey. unfold getProperty.
  destruct (priceData !! key) as [list|]; [left; by exists list|right].
  unfold ObjectPrototype. cbn [lookupProperty].
  repeat match goal with
  | |- context [String.eqb key ?lit] =>
      destruct (String.eqb_spec key lit) as [->|?];
      [first [ discriminate Hkey
             | left; split_and!; reflexivity
             | right; left; split_and!; reflexivity ]|]
  end.
  right. right. split_and!; [reflexivity|assumption..|reflexivity].
Qed.

Lemma getCheapestStoreFor_lower (name : string) :
  getCheapestStoreFor (toLowerCase name) = getCheapestStoreFor name.
Proof. unfold getCheapestStoreFor. by rewrite toLowerCase_idempotent. Qed.

(** The look-up throws exactly on the names that lowercase to
    [constructor] or [__proto__]. *)
Lemma getCheapestStoreFor_throws (name : string) :
  (∃ e, getCheapestStoreFor name = Throw e) ↔ inheritedName name.
Proof.
  unfold inheritedName, getCheapestStoreFor.
  destruct (getProperty_cases (toLowerCase name) (toLowerCase_idempotent name))
    as [(list & Hown & ->)|[(_ & Hk & ->)|[(_ & Hk & ->)|(_ & Hc & Hp & ->)]]].
  - split.
    + intros [e He]. destruct list; discriminate He.
    + intros [Hk|Hk]; rewrite Hk in Hown; vm_compute in Hown; discriminate Hown.
  - split; [auto|]. intros _. by exists TypeError.
  - split; [auto|]. intros _. by exists TypeError.
  - split; [intros [e He]; discriminate He|]. intros [?|?]; contradiction.
Qed.

(** * The reminders of the page *)

Lemma mapC_throws {A B} (f : A → completion B) (l : list A) :
  (∃ e, mapC f l = Throw e) ↔ ∃ x, x ∈ l ∧ ∃ e, f x = Throw e.
Proof.
  induction l as [|x l IH]; cbn [mapC].
  - split; [intros [e He]; discriminate He|].
    intros (x & Hx & _). by apply elem_of_nil in Hx.
  - destruct (f x) as [y|e] eqn:Hfx.
    + destruct (mapC f l) as [ys|e].
      * split; [intros [e He]; discriminate He|].
        intros (x' & [->|Hx']%elem_of_cons & e & He); [congruence|].
        apply proj2 in IH. destruct IH as [e' He']; [eauto|discriminate He'].
      * split; [|by eauto]. intros _.
        destruct (proj1 IH ltac:(eauto)) as (x' & Hx' & He').
        exists x'. split; [by right|done].
    + split; [|by eauto]. intros _. exists x. split; [by left|by eauto].
Qed.

Lemma mapC_normal {A B} (f : A → completion B) (l : list A) (ys : list B) :
  mapC f l = Normal ys → Forall2 (λ x y, f x = Normal y) l ys.
Proof.
  revert ys. induction l as [|x l IH]; intros ys; cbn [mapC].
  - intros [= <-]. constructor.
  - destruct (f x) as [y|e] eqn:Hfx; [|discriminate].
    destruct (mapC f l) as [ys'|e]; [|discriminate].
    intros [= <-]. constructor; [done|]. by apply IH.
Qed.

Lemma soonReminder_throws (entry : Expiring) :
  (∃ e, soonReminder entry = Throw e) ↔ inheritedName (Item.name (item entry)).
Proof.
  unfold soonReminder. rewrite <- getCheapestStoreFor_throws.
  rewrite getCheapestStoreFor_lower.
  destruct (getCheapestStoreFor (Item.name (item entry))) as [store|e].
  - split; intros [e He]; discriminate He.
  - split; intros _; by exists e.
Qed.

Lemma restockReminder_throws (it : Item.t) :
  (∃ e, restockReminder it = Throw e) ↔ inheritedName (Item.name it).
Proof.
  unfold restockReminder. rewrite <- getCheapestStoreFor_throws.
  rewrite getCheapestStoreFor_lower.
  destruct (getCheapestStoreFor (Item.name it)) as [store|e].
  - split; intros [e He]; discriminate He.
  - split; intros _; by exists e.
Qed.

(** X1: [render] throws exactly when an item that expires soon or an item to
    restock has a name that lowercases to [constructor] or [__proto__];
    otherwise it shows one line for each of those items, in their order,
    each with the name of its item, and no line of an item that expires
    soon shows a negative number of days. *)
Theorem render_throws (LocalTZA : Z → Z) (now : Z) (st : State) :
  ((∃ e, render LocalTZA now st = Throw e) ↔
     (∃ entry, entry ∈ getSoonExpiringItems LocalTZA now (inventory st)
               ∧ inheritedName (Item.name (item entry)))
     ∨ (∃ it, it ∈ getRestockItems (inventory st)
              ∧ inheritedName (Item.name it)))
  ∧ (∀ view, render LocalTZA now st = Normal view →
       reminderName <$> soonList view
       = (λ entry, Item.name (item entry))
           <$> getSoonExpiringItems LocalTZA now (inventory st)
       ∧ reminderName <$> restockList view
         = Item.name <$> getRestockItems (inventory st)
       ∧ Forall (λ line, ∃ d, reminderDays line = Some d ∧ (0 ≤ d)%Z)
                (soonList view)).
Proof.
  unfold render. split.
  - destruct (mapC soonReminder _) as [soon|e] eqn:Hsoon.
    + destruct (mapC restockReminder _) as [restock|e] eqn:Hrestock.
      * split; [intros [e He]; discriminate He|].
        intros [(entry & Hin & Hname)|(it & Hin & Hname)].
        -- assert (∃ e, mapC soonReminder
                     (getSoonExpiringItems LocalTZA now (inventory st)) = Throw e)
             as [e He]; [|congruence].
           apply mapC_throws. exists entry. split; [done|].
           by apply soonReminder_throws.
        -- assert (∃ e, mapC restockReminder
                     (getRestockItems (inventory st)) = Throw e)
             as [e He]; [|congruence].
           apply mapC_throws. exists it. split; [done|].
           by apply restockReminder_throws.
      * split; [|by eauto]. intros _. right.
        destruct (proj1 (mapC_throws _ _) (ex_intro _ e Hrestock))
          as (it & Hin & He).
        exists it. split; [done|]. by apply restockReminder_throws.
    + split; [|by eauto]. intros _. left.
      destruct (proj1 (mapC_throws _ _) (ex_intro _ e Hsoon))
        as (entry & Hin & He).
      exists entry. split; [done|]. by apply soonReminder_throws.
  - intros view.
    destruct (mapC soonReminder _) as [soon|e] eqn:Hsoon; [|discriminate].
    destruct (mapC restockReminder _) as [restock|e] eqn:Hrestock; [|discriminate].
    intros [= <-]. cbn [soonList restockList].
    apply mapC_normal in Hsoon, Hrestock. split_and!.
    + induction Hsoon as [|entry line entries lines Hline _ IH]; [done|].
      cbn [fmap list_fmap]. f_equal; [|exact IH].
      unfold soonReminder in Hline.
      destruct (getCheapestStoreFor _); [|discriminate]. by injection Hline as <-.
    + induction Hrestock as [|it line its lines Hline _ IH]; [done|].
      cbn [fmap list_fmap]. f_equal; [|exact IH].
      unfold restockReminder in Hline.
      destruct (getCheapestStoreFor _); [|discriminate]. by injection Hline as <-.
    + induction Hsoon as [|entry line entries lines Hline _ IH]; [done|].
      constructor; [|exact IH].
      unfold soonReminder in Hline.
      destruct (getCheapestStoreFor _); [|discriminate]. injection Hline as <-.
      cbn [reminderDays]. eexists. split; [reflexivity|].
      unfold shownDays. destruct (daysLeft entry) as [d|]; [|done].
      destruct (Z.leb_spec 0 d); lia.
Qed.

(** * Sequences of clicks *)

(** What a handler does to the state: nothing, or a new inventory and its
    snapshot. *)
Lemma step_cases (e : event) (st : State) :
  step e st = st
  ∨ ∃ inv', step e st
            = saveInventory {| inventory := inv'; localStorage := localStorage st |}.
Proof.
  destruct e as [form newId|id|id|recipe]; cbn [step].
  - unfold addSubmit. destruct (negb _); [by left|right; by eexists].
  - unfold useClick. destruct (list_find _ _) as [[i it]|]; [right; by eexists|by left].
  - right. by eexists.
  - unfold cookClick, cookHandler. destruct (canCook _); [|by left].
    destruct (list_find _ recipes) as [[k r]|]; [right; by eexists|by left].
Qed.

Lemma persisted_saveInventory (inv : list Item.t) (storage : gmap string string) :
  persisted (saveInventory {| inventory := inv; localStorage := storage |}).
Proof.
  unfold persisted, loadInventory, saveInventory. cbn [localStorage inventory].
  rewrite lookup_insert_eq.
  change (truthy (Persist.stringify inv)) with true. cbv iota.
  rewrite PersistProofs.parse_stringify. reflexivity.
Qed.

Lemma persisted_step (e : event) (st : State) :
  persisted st → persisted (step e st).
Proof.
  intros Hst. destruct (step_cases e st) as [->|[inv' ->]]; [done|].
  apply persisted_saveInventory.
Qed.

(** X2: whatever is clicked, in whatever order, the stored snapshot keeps
    reading back as the inventory in memory: a restart after any sequence of
    actions starts from the inventory the page had. *)
Theorem run_persisted (events : list event) (st : State) :
  persisted st → persisted (run events st).
Proof.
  revert st. induction events as [|e events IH]; intros st Hst; [done|].
  cbn [run foldl]. apply IH. by apply persisted_step.
Qed.

Lemma run_persisted_witness : persisted (run Session.events Session.saved).
Proof.
  apply (run_persisted Session.events Session.saved).
  vm_compute. reflexivity.
Defined.

(** The inventory after a handler. *)
Lemma useClick_inventory (id : string) (st : State) :
  inventory (useClick id st) = inventory st
  ∨ ∃ i it, list_find (λ itm, Item.id itm = id) (inventory st) = Some (i, it)
            ∧ (0 < Item.quantity it)%Z
            ∧ inventory (useClick id st) = <[i := Item.decrement it]> (inventory st).
Proof.
  unfold useClick. destruct (list_find _ _) as [[i it]|] eqn:Hfind; [|by left].
  cbn [saveInventory inventory].
  destruct (0 <? Item.quantity it)%Z eqn:Hq; [|by left].
  right. exists i, it. by rewrite Z.ltb_lt in Hq.
Qed.

Lemma cookClick_inventory (recipe : Recipe.t) (st : State) :
  inventory (cookClick recipe st) = inventory st
  ∨ ∃ r, inventory (cookClick recipe st)
         = foldl deduct (inventory st) (Recipe.ingredients r).
Proof.
  unfold cookClick, cookHandler. destruct (canCook _); [|by left].
  destruct (list_find _ recipes) as [[k r]|]; [|by left].
  right. by exists r.
Qed.

Lemma addSubmit_inventory (form : AddForm) (newId : string) (st : State) :
  inventory (addSubmit form newId st) = inventory st
  ∨ ∃ it, Item.id it = newId
          ∧ Item.quantity it = default 0%Z (parseInt (formQuantity form))
          ∧ inventory (addSubmit form newId st) = inventory st ++ [it].
Proof.
  unfold addSubmit. destruct (negb _); [by left|].
  right. cbn [saveInventory inventory].
  match goal with |- context [inventory st ++ [?x]] => exists x end.
  split_and!; reflexivity.
Qed.

(** A property of the inventory that one deduction keeps is kept by the
    whole loop of the Cook handler. *)
Lemma foldl_deduct_preserves (P : list Item.t → Prop) :
  (∀ inv ing, P inv → P (deduct inv ing)) →
  ∀ ings inv, P inv → P (foldl deduct inv ings).
Proof.
  intros Hstep ings. induction ings as [|ing ings IH]; intros inv Hinv; [done|].
  cbn [foldl]. apply IH, Hstep, Hinv.
Qed.

Lemma decrement_insert_ids (inv : list Item.t) (i : nat) (it : Item.t) :
  inv !! i = Some it →
  Item.id <$> <[i := Item.decrement it]> inv = Item.id <$> inv.
Proof.
  intros Hi. rewrite list_fmap_insert. apply list_insert_id.
  by rewrite list_lookup_fmap, Hi.
Qed.

Lemma deduct_ids (inv : list Item.t) (ing : string) :
  Item.id <$> deduct inv ing = Item.id <$> inv.
Proof.
  destruct (deduct_cases inv ing) as [->|(i & it & Hf & _ & ->)]; [done|].
  apply decrement_insert_ids. by apply findByName_Some in Hf as (Hi & _).
Qed.

Lemma ids_useClick (id : string) (st : State) : ids (useClick id st) = ids st.
Proof.
  unfold ids.
  destruct (useClick_inventory id st) as [->|(i & it & Hf & _ & ->)]; [done|].
  apply decrement_insert_ids. by apply list_find_Some in Hf as (Hi & _).
Qed.

Lemma ids_cookClick (recipe : Recipe.t) (st : State) :
  ids (cookClick recipe st) = ids st.
Proof.
  unfold ids. destruct (cookClick_inventory recipe st) as [->|[r ->]]; [done|].
  apply (foldl_deduct_preserves
           (λ inv, Item.id <$> inv = Item.id <$> inventory st)); [|done].
  intros inv ing Hinv. by rewrite deduct_ids.
Qed.

Lemma NoDup_step (e : event) (st : State) :
  match e with Submit _ newId => newId ∉ ids st | _ => True end →
  NoDup (ids st) → NoDup (ids (step e st)).
Proof.
  intros Hfresh Hnd. destruct e as [form newId|id|id|recipe]; cbn [step].
  - unfold ids in *.
    destruct (addSubmit_inventory form newId st) as [->|(it & Hid & _ & ->)];
      [done|].
    rewrite fmap_app. apply NoDup_app. split_and!; [done| |].
    + intros x Hx [->|Hnil%elem_of_nil]%elem_of_cons; [|done].
      cbn in Hfresh. congruence.
    + cbn. apply NoDup_singleton.
  - by rewrite ids_useClick.
  - unfold ids, deleteClick. cbn [saveInventory inventory].
    eapply sublist_NoDup; [exact Hnd|].
    apply fmap_sublist, sublist_filter.
  - by rewrite ids_cookClick.
Qed.

(** X3: identifiers that are unique stay unique through every sequence of
    actions in which each submission comes with an identifier that no item
    has at that moment. *)
Theorem run_unique_ids (events : list event) (st : State) :
  NoDup (ids st) → freshIds events st → NoDup (ids (run events st)).
Proof.
  revert st. induction events as [|e events IH]; intros st Hnd Hfresh; [done|].
  cbn [run foldl]. destruct Hfresh as [He Hrest].
  apply IH; [|done]. by apply NoDup_step.
Qed.

Lemma run_unique_ids_witness : NoDup (ids (run Session.events Sample.state)).
Proof.
  apply (run_unique_ids Session.events Sample.state).
  - by_decide.
  - cbn [freshIds Session.events]. split_and!; try exact I. by_decide.
Defined.

(** * Quantities *)

Lemma nonNegative_decrement (inv : list Item.t) (i : nat) (it : Item.t) :
  (0 < Item.quantity it)%Z → nonNegative inv →
  nonNegative (<[i := Item.decrement it]> inv).
Proof.
  intros Hq Hinv. apply Forall_insert; [done|]. cbn.
  by apply subtract_one_nonneg.
Qed.

Lemma nonNegative_step (e : event) (st : State) :
  match e with
  | Submit form _ => (0 ≤ default 0 (parseInt (formQuantity form)))%Z
  | _ => True
  end →
  nonNegative (inventory st) → nonNegative (inventory (step e st)).
Proof.
  intros He Hinv. destruct e as [form newId|id|id|recipe]; cbn [step].
  - destruct (addSubmit_inventory form newId st) as [->|(it & _ & Hq & ->)];
      [done|].
    apply Forall_app. split; [done|]. apply Forall_singleton. by rewrite Hq.
  - destruct (useClick_inventory id st) as [->|(i & it & _ & Hq & ->)]; [done|].
    by apply nonNegative_decrement.
  - cbn [deleteClick saveInventory inventory].
    unfold nonNegative in *. rewrite Forall_forall in *.
    intros it [_ Hin]%list_elem_of_filter. by apply Hinv.
  - destruct (cookClick_inventory recipe st) as [->|[r ->]]; [done|].
    apply (foldl_deduct_preserves nonNegative); [|done].
    intros inv ing Hnn.
    destruct (deduct_cases inv ing) as [->|(i & it & _ & Hq & ->)]; [done|].
    by apply nonNegative_decrement.
Qed.

(** X4: Use, Delete and Cook never bring a quantity below 0: in
    every sequence of actions whose submissions bring no negative quantity,
    an inventory without negative quantities stays without. *)
Theorem run_non_negative (events : list event) (st : State) :
  noNegativeSubmission events →
  nonNegative (inventory st) → nonNegative (inventory (run events st)).
Proof.
  revert st. induction events as [|e events IH]; intros st Hev Hinv; [done|].
  apply Forall_cons in Hev as [He Hev].
  cbn [run foldl]. apply IH; [done|]. by apply nonNegative_step.
Qed.

Lemma run_non_negative_witness :
  nonNegative (inventory (run Session.events Sample.state)).
Proof.
  apply (run_non_negative Session.events Sample.state).
  - repeat apply Forall_cons_2; try apply Forall_nil_2; try exact I. by_decide.
  - by_decide.
Defined.

(** * Use *)

Lemma withQuantity_same (it : Item.t) : withQuantity (Item.quantity it) it = it.
Proof. by destruct it. Qed.

Lemma useClick_at (st : State) (i : nat) (it : Item.t) :
  NoDup (ids st) → inventory st !! i = Some it →
  inventory (useClick (Item.id it) st)
  = <[i := withQuantity (if (0 <? Item.quantity it)%Z
                         then JSNumber.subtract (Item.quantity it) 1
                         else Item.quantity it) it]> (inventory st).
Proof.
  intros Hnd Hi. unfold useClick.
  rewrite (list_find_id_unique _ _ _ Hnd Hi). cbn [saveInventory inventory].
  destruct (0 <? Item.quantity it)%Z; [done|].
  by rewrite withQuantity_same, list_insert_id.
Qed.

Lemma ids_useClick_iter (n : nat) (id : string) (st : State) :
  ids (Nat.iter n (useClick id) st) = ids st.
Proof.
  induction n as [|n IH]; [done|]. by rewrite Nat.iter_succ, ids_useClick.
Qed.

(** X5: with unique identifiers, [n] clicks on the Use button of an item of
    quantity [q], from 0 to [2 ^ 53], leave it with [max (q - n) 0], and
    every other item as it was. *)
Theorem useClick_repeated (n : nat) (st : State) (i : nat) (it : Item.t) :
  NoDup (ids st) → inventory st !! i = Some it →
  (0 ≤ Item.quantity it ≤ 2 ^ 53)%Z →
  inventory (Nat.iter n (useClick (Item.id it)) st)
  = <[i := withQuantity (Z.max (Item.quantity it - Z.of_nat n) 0) it]>
      (inventory st).
Proof.
  intros Hnd Hi Hq. induction n as [|n IH].
  - cbn [Nat.iter nat_rect]. rewrite Z.sub_0_r, Z.max_l by lia.
    by rewrite withQuantity_same, list_insert_id.
  - rewrite Nat.iter_succ.
    pose proof (ids_useClick_iter n (Item.id it) st) as Hids.
    set (st' := Nat.iter n (useClick (Item.id it)) st) in *.
    set (it' := withQuantity (Z.max (Item.quantity it - Z.of_nat n) 0) it) in *.
    assert (Hi' : inventory st' !! i = Some it').
    { rewrite IH. apply list_lookup_insert_eq. by eapply lookup_lt_Some. }
    change (Item.id it) with (Item.id it') at 1.
    rewrite (useClick_at st' i it') by (by rewrite ?Hids).
    rewrite IH, list_insert_insert_eq. f_equal.
    subst it'. unfold withQuantity. cbn. f_equal.
    destruct (Z.ltb_spec 0 (Z.max (Item.quantity it - Z.of_nat n) 0));
      [rewrite subtract_one_exact|]; lia.
Qed.

Lemma useClick_repeated_witness :
  inventory (Nat.iter 3 (useClick (Item.id Session.peanutButter)) Sample.state)
  = <[2%nat := withQuantity (Z.max (Item.quantity Session.peanutButter
                                    - Z.of_nat 3) 0) Session.peanutButter]>
      (inventory Sample.state).
Proof.
  apply (useClick_repeated 3 Sample.state 2 Session.peanutButter).
  - by_decide.
  - reflexivity.
  - by_decide.
Defined.

(** X6: with unique identifiers, using the last unit of a regular item puts it
    on the restock list, and using one unit of several does not. *)
Theorem useClick_then_restock (st : State) (i : nat) (it : Item.t) :
  NoDup (ids st) → inventory st !! i = Some it → Item.regular it = true →
  (Item.quantity it = 1%Z →
     withQuantity 0 it ∈ getRestockItems (inventory (useClick (Item.id it) st)))
  ∧ ((2 ≤ Item.quantity it)%Z →
     ∀ other, other ∈ getRestockItems (inventory (useClick (Item.id it) st)) →
              Item.id other ≠ Item.id it).
Proof.
  intros Hnd Hi Hreg. rewrite (useClick_at st i it Hnd Hi). split.
  - intros Hq. rewrite Hq.
    change (if (0 <? 1)%Z then JSNumber.subtract 1 1 else 1%Z) with 0%Z.
    apply getRestockItems_elem_of. split_and!; [|done|done].
    apply list_elem_of_lookup. exists i.
    apply list_lookup_insert_eq. by eapply lookup_lt_Some.
  - intros Hq other (Hin & _ & Hle)%getRestockItems_elem_of Hid.
    apply list_elem_of_lookup in Hin as [j Hj].
    destruct (decide (j = i)) as [->|Hne].
    + rewrite list_lookup_insert_eq in Hj by (by eapply lookup_lt_Some).
      injection Hj as <-.
      pose proof (subtract_one_pos _ Hq) as Hpos.
      unfold withQuantity in Hle. cbn [Item.quantity] in Hle.
      destruct (Z.ltb_spec 0 (Item.quantity it)); lia.
    + rewrite list_lookup_insert_ne in Hj by done.
      assert (j = i); [|done].
      eapply NoDup_lookup; [exact Hnd|..]; unfold ids.
      * rewrite list_lookup_fmap, Hj. cbn. by rewrite Hid.
      * by rewrite list_lookup_fmap, Hi.
Qed.

Lemma useClick_then_restock_witness :
  (Item.quantity Session.lastMilk = 1%Z →
     withQuantity 0 Session.lastMilk
       ∈ getRestockItems
           (inventory (useClick (Item.id Session.lastMilk) Session.fridge)))
  ∧ ((2 ≤ Item.quantity Session.lastMilk)%Z →
     ∀ other,
       other ∈ getRestockItems
                 (inventory (useClick (Item.id Session.lastMilk) Session.fridge)) →
       Item.id other ≠ Item.id Session.lastMilk).
Proof.
  apply (useClick_then_restock Session.fridge 0 Session.lastMilk).
  - by_decide.
  - reflexivity.
  - reflexivity.
Defined.

(** * Unknown identifiers, and undoing a submission *)

(** X7: with an identifier that no item has, the Use handler changes
    nothing, not even the stored snapshot, and the Delete handler leaves the
    inventory as it is (and saves it). *)
Theorem unknown_id (id : string) (st : State) :
  id ∉ ids st →
  useClick id st = st
  ∧ inventory (deleteClick id st) = inventory st
  ∧ localStorage (deleteClick id st)
    = <["inventory" := Persist.stringify (inventory st)]> (localStorage st).
Proof.
  intros Hid. split_and!.
  - unfold useClick.
    destruct (list_find _ _) as [[i it]|] eqn:Hfind; [|done].
    apply list_find_Some in Hfind as (Hi & Heq & _).
    destruct Hid. unfold ids. rewrite <- Heq.
    apply list_elem_of_lookup. exists i. by rewrite list_lookup_fmap, Hi.
  - cbn [deleteClick saveInventory inventory]. by apply filter_other_ids.
  - cbn [deleteClick saveInventory inventory localStorage].
    by rewrite filter_other_ids.
Qed.

Lemma unknown_id_witness :
  useClick "z" Sample.state = Sample.state
  ∧ inventory (deleteClick "z" Sample.state) = inventory Sample.state
  ∧ localStorage (deleteClick "z" Sample.state)
    = <["inventory" := Persist.stringify (inventory Sample.state)]>
        (localStorage Sample.state).
Proof.
  apply (unknown_id "z" Sample.state). by_decide.
Defined.

(** X8: deleting the item that a submission has just added, by the new
    identifier it came with, gives the inventory back as it was. *)
Theorem submit_then_delete (form : AddForm) (newId : string) (st : State) :
  newId ∉ ids st →
  inventory (deleteClick newId (addSubmit form newId st)) = inventory st.
Proof.
  intros Hid. cbn [deleteClick saveInventory inventory].
  destruct (addSubmit_inventory form newId st) as [->|(it & Hit & _ & ->)].
  - by apply filter_other_ids.
  - rewrite filter_app, filter_other_ids by done.
    rewrite filter_cons_False by (intros Hne; by apply Hne).
    by rewrite filter_nil, app_nil_r.
Qed.

Lemma submit_then_delete_witness :
  inventory (deleteClick "e" (addSubmit Session.form "e" Sample.state))
  = inventory Sample.state.
Proof.
  apply (submit_then_delete Session.form "e" Sample.state). by_decide.
Defined.

(** * Suggestions on an empty or a growing inventory *)

Lemma missing_elem_of_unavailable inventory recipe ing :
  ing ∈ missingIngredients inventory recipe ↔
  unavailable (findByName ing inventory) = true
  ∧ ing ∈ Recipe.ingredients recipe.
Proof. by rewrite missingIngredients_filter, list_elem_of_filter. Qed.

Lemma missingIngredients_nil (recipe : Recipe.t) :
  missingIngredients [] recipe = Recipe.ingredients recipe.
Proof.
  rewrite missingIngredients_filter.
  induction (Recipe.ingredients recipe) as [|ing ings IH]; [done|].
  rewrite filter_cons_True by done. by rewrite IH.
Qed.

(** X9: with an empty inventory every ingredient of every recipe is missing
    and no recipe can be cooked; nothing is to restock and nothing expires. *)
Theorem empty_inventory (LocalTZA : Z → Z) (now : Z) :
  (∀ recipe, missingIngredients [] recipe = Recipe.ingredients recipe)
  ∧ getRecipeSuggestions []
    = (λ recipe, (recipe, Recipe.ingredients recipe)) <$> recipes
  ∧ Forall (λ row, canCook row.2 = false) (getRecipeSuggestions [])
  ∧ getRestockItems [] = []
  ∧ getSoonExpiringItems LocalTZA now [] = [].
Proof.
  assert (Hsug : getRecipeSuggestions []
                 = (λ recipe, (recipe, Recipe.ingredients recipe)) <$> recipes).
  { unfold getRecipeSuggestions. apply list_fmap_ext.
    intros _ recipe _. by rewrite missingIngredients_nil. }
  split_and!; [apply missingIngredients_nil|done| |done|done].
  rewrite Hsug. by_decide.
Qed.

Lemma findByName_app_l (inv extra : list Item.t) ing i it :
  findByName ing inv = Some (i, it) → findByName ing (inv ++ extra) = Some (i, it).
Proof. apply list_find_app_l. Qed.

Lemma unavailable_app (inv extra : list Item.t) (ing : string) :
  unavailable (findByName ing (inv ++ extra)) = true →
  unavailable (findByName ing inv) = true.
Proof.
  destruct (findByName ing inv) as [[i it]|] eqn:Hfind; [|done].
  by rewrite (findByName_app_l _ extra _ _ _ Hfind).
Qed.

(** X10: a submission never makes an ingredient missing that was not; and an
    ingredient whose first matching item has a quantity of 0 or less stays
    missing whatever is submitted: a second entry of the same name does not
    help while the first one is there. *)
Theorem submit_and_missing (form : AddForm) (newId : string) (st : State)
    (recipe : Recipe.t) (ing : string) :
  (ing ∈ missingIngredients (inventory (addSubmit form newId st)) recipe →
   ing ∈ missingIngredients (inventory st) recipe)
  ∧ (∀ i it, ing ∈ Recipe.ingredients recipe →
       firstMatch (inventory st) ing i it → (Item.quantity it ≤ 0)%Z →
       ing ∈ missingIngredients (inventory (addSubmit form newId st)) recipe).
Proof.
  destruct (addSubmit_inventory form newId st) as [->|(new & _ & _ & ->)];
    split; try done.
  - intros i it Hing Hfirst Hq. apply missing_elem_of. split; [done|].
    right. by exists i, it.
  - rewrite !missing_elem_of_unavailable. intros [Hun Hing].
    split; [|done]. by eapply unavailable_app.
  - intros i it Hing Hfirst%findByName_Some Hq.
    apply missing_elem_of_unavailable. split; [|done].
    rewrite (findByName_app_l _ [new] _ _ _ Hfirst). cbn. by apply Z.leb_le.
Qed.

(** * Letter case of the names of the inventory *)

Lemma unavailable_same_case (inv inv' : list Item.t) (ing : string) :
  Forall2 (λ a b, toLowerCase (Item.name a) = toLowerCase (Item.name b)
                  ∧ Item.quantity a = Item.quantity b) inv inv' →
  unavailable (findByName ing inv) = unavailable (findByName ing inv').
Proof.
  unfold findByName. induction 1 as [|a b inv inv' [Hname Hq] _ IH]; [done|].
  cbn [list_find]. rewrite Hname.
  destruct (decide (toLowerCase (Item.name b) = toLowerCase ing)).
  - cbn. by rewrite Hq.
  - destruct (list_find _ inv) as [[i x]|], (list_find _ inv') as [[j y]|];
      exact IH.
Qed.

(** X11: the suggestions do not depend on the letter case of the names in the
    inventory: two inventories whose items have, slot by slot, the same
    quantity and names that are equal when lowercased give every recipe
    the same missing ingredients. *)
Theorem suggestions_ignore_case (inv inv' : list Item.t) :
  Forall2 (λ a b, toLowerCase (Item.name a) = toLowerCase (Item.name b)
                  ∧ Item.quantity a = Item.quantity b) inv inv' →
  getRecipeSuggestions inv = getRecipeSuggestions inv'
  ∧ ∀ recipe, missingIngredients inv recipe = missingIngredients inv' recipe.
Proof.
  intros Hsame.
  assert (Hmissing : ∀ recipe,
            missingIngredients inv recipe = missingIngredients inv' recipe).
  { intros recipe. rewrite !missingIngredients_filter.
    apply list_filter_iff. intros ing.
    by rewrite (unavailable_same_case inv inv' ing Hsame). }
  split; [|done]. unfold getRecipeSuggestions.
  apply list_fmap_ext. intros _ recipe _. by rewrite Hmissing.
Qed.

Lemma suggestions_ignore_case_witness :
  getRecipeSuggestions Sample.pantry = getRecipeSuggestions Session.capitals
  ∧ ∀ recipe, missingIngredients Sample.pantry recipe
              = missingIngredients Session.capitals recipe.
Proof.
  apply (suggestions_ignore_case Sample.pantry Session.capitals).
  repeat apply Forall2_cons_2; try apply Forall2_nil_2; split; reflexivity.
Defined.

(** * After cooking *)

(** With the same names, the first match of an ingredient is at the same
    index. *)
Lemma findByName_same_names (inv inv' : list Item.t) ing i it :
  Item.name <$> inv' = Item.name <$> inv →
  findByName ing inv = Some (i, it) →
  ∃ it', findByName ing inv' = Some (i, it') ∧ inv' !! i = Some it'.
Proof.
  intros Hnames Hfind.
  pose proof (firstIndex_names ing inv' inv Hnames) as Hidx.
  unfold firstIndex in Hidx. rewrite Hfind in Hidx.
  destruct (findByName ing inv') as [[j it']|] eqn:Hfind'; [|done].
  cbn in Hidx. injection Hidx as ->.
  exists it'. split; [done|]. by apply findByName_Some in Hfind' as (? & _).
Qed.

Lemma cookClick_cookable (recipe : Recipe.t) (st : State) :
  recipe ∈ recipes →
  canCook (missingIngredients (inventory st) recipe) = true →
  inventory (cookClick recipe st)
  = foldl deduct (inventory st) (Recipe.ingredients recipe)
  ∧ NoDup (toLowerCase <$> Recipe.ingredients recipe).
Proof.
  intros Hin Hcook.
  destruct (recipes_find_by_name recipe Hin) as [k Hfind].
  unfold cookClick, cookHandler. rewrite Hcook, Hfind. split; [done|].
  pose proof recipes_distinct_ingredients as Hall.
  rewrite Forall_forall in Hall. by apply Hall.
Qed.

(** X12: after a recipe of the list has been cooked, an ingredient of it is
    missing exactly when its first matching item had a quantity of 1: the
    recipe can be cooked again exactly when every first match had 2 or
    more. *)
Theorem cookClick_then_missing (recipe : Recipe.t) (st : State) :
  recipe ∈ recipes →
  canCook (missingIngredients (inventory st) recipe) = true →
  (∀ ing, ing ∈ missingIngredients (inventory (cookClick recipe st)) recipe ↔
     ing ∈ Recipe.ingredients recipe
     ∧ ∃ i it, firstMatch (inventory st) ing i it ∧ Item.quantity it = 1%Z)
  ∧ (canCook (missingIngredients (inventory (cookClick recipe st)) recipe) = true
     ↔ ∀ ing i it, ing ∈ Recipe.ingredients recipe →
         firstMatch (inventory st) ing i it → (2 ≤ Item.quantity it)%Z).
Proof.
  intros Hin Hcook.
  destruct (cookClick_cookable recipe st Hin Hcook) as [-> Hnd].
  destruct (foldl_deduct_spec (inventory st) (Recipe.ingredients recipe)
              (inventory st) Hnd eq_refl ltac:(done))
    as (Hnames & Hdec & _).
  set (inv' := foldl deduct (inventory st) (Recipe.ingredients recipe)) in *.
  assert (Hafter : ∀ ing i it,
            ing ∈ Recipe.ingredients recipe →
            findByName ing (inventory st) = Some (i, it) →
            (0 < Item.quantity it)%Z
            ∧ findByName ing inv' = Some (i, Item.decrement it)).
  { intros ing i it Hing Hfind.
    destruct (cookable_first_match _ _ _ Hcook Hing) as (i0 & it0 & Hf0 & Hq).
    assert (i0 = i ∧ it0 = it) as [-> ->] by (split; congruence).
    split; [done|].
    destruct (findByName_same_names _ inv' _ _ _ Hnames Hfind)
      as (it' & Hfind' & Hi').
    rewrite (Hdec ing i it Hing Hfind) in Hi'.
    rewrite (proj2 (Z.ltb_lt _ _) Hq) in Hi'. congruence. }
  assert (Hmissing : ∀ ing,
            ing ∈ missingIngredients inv' recipe ↔
            ing ∈ Recipe.ingredients recipe
            ∧ ∃ i it, firstMatch (inventory st) ing i it
                      ∧ Item.quantity it = 1%Z).
  { intros ing. rewrite missing_elem_of_unavailable. split.
    - intros [Hun Hing]. split; [done|].
      destruct (cookable_first_match _ _ _ Hcook Hing) as (i & it & Hfind & _).
      destruct (Hafter ing i it Hing Hfind) as [Hq Hfind'].
      rewrite Hfind' in Hun. cbn in Hun. apply Z.leb_le in Hun.
      exists i, it. split; [by apply findByName_Some|].
      destruct (decide (2 ≤ Item.quantity it)%Z) as [Hmore|?]; [|lia].
      pose proof (subtract_one_pos _ Hmore). lia.
    - intros (Hing & i & it & Hfirst%findByName_Some & Hq). split; [|done].
      destruct (Hafter ing i it Hing Hfirst) as [_ ->]. cbn.
      by rewrite Hq. }
  split; [exact Hmissing|].
  rewrite canCook_nil. split.
  - intros Hnil ing i it Hing Hfirst.
    destruct (Hafter ing i it Hing (proj2 (findByName_Some _ _ _ _) Hfirst))
      as [Hq _].
    destruct (decide (Item.quantity it = 1%Z)) as [Hone|?]; [|lia].
    assert (ing ∈ missingIngredients inv' recipe) as Hm
      by (apply Hmissing; eauto).
    rewrite Hnil in Hm. by apply elem_of_nil in Hm.
  - intros Hall. destruct (missingIngredients inv' recipe) as [|ing l] eqn:Hl;
      [done|].
    destruct (proj1 (Hmissing ing) ltac:(by left))
      as (Hing & i & it & Hfirst & Hq).
    specialize (Hall ing i it Hing Hfirst). lia.
Qed.

Lemma cookClick_then_missing_witness :
  (∀ ing,
     ing ∈ missingIngredients
             (inventory (cookClick Sample.sandwich Sample.state))
             Sample.sandwich ↔
     ing ∈ Recipe.ingredients Sample.sandwich
     ∧ ∃ i it, firstMatch (inventory Sample.state) ing i it
               ∧ Item.quantity it = 1%Z)
  ∧ (canCook (missingIngredients
                (inventory (cookClick Sample.sandwich Sample.state))
                Sample.sandwich) = true
     ↔ ∀ ing i it, ing ∈ Recipe.ingredients Sample.sandwich →
         firstMatch (inventory Sample.state) ing i it →
         (2 ≤ Item.quantity it)%Z).
Proof.
  apply (cookClick_then_missing Sample.sandwich Sample.state).
  - by_decide.
  - reflexivity.
Defined.

(** * The total of the quantities *)

Lemma totalQuantity_cons (x : Item.t) (inv : list Item.t) :
  totalQuantity (x :: inv) = (Item.quantity x + totalQuantity inv)%Z.
Proof. reflexivity. Qed.

Lemma totalQuantity_insert (inv : list Item.t) (i : nat) (old new : Item.t) :
  inv !! i = Some old →
  totalQuantity (<[i := new]> inv)
  = (totalQuantity inv - Item.quantity old + Item.quantity new)%Z.
Proof.
  revert i. induction inv as [|x inv IH]; intros [|i] Hi; try done.
  - cbn in Hi. injection Hi as ->.
    change (<[0%nat := new]> (old :: inv)) with (new :: inv).
    rewrite !totalQuantity_cons. lia.
  - change (<[S i := new]> (x :: inv)) with (x :: <[i := new]> inv).
    rewrite !totalQuantity_cons, (IH i Hi). lia.
Qed.

Lemma foldl_deduct_total (inv : list Item.t) (ings : list string) :
  ∀ cur : list Item.t,
    NoDup (toLowerCase <$> ings) →
    Item.name <$> cur = Item.name <$> inv →
    (∀ ing i it, ing ∈ ings → findByName ing inv = Some (i, it) →
                 cur !! i = Some it) →
    (∀ ing, ing ∈ ings →
       ∃ i it, findByName ing inv = Some (i, it)
               ∧ (0 < Item.quantity it ≤ 2 ^ 53)%Z) →
    totalQuantity (foldl deduct cur ings)
    = (totalQuantity cur - Z.of_nat (length ings))%Z.
Proof.
  induction ings as [|a rest IH]; intros cur Hnd Hnames Hsame Hpos.
  - cbn [foldl length]. lia.
  - rewrite fmap_cons, NoDup_cons in Hnd. destruct Hnd as [Ha Hnd].
    destruct (Hpos a ltac:(by left)) as (i & it & Hfind & Hq).
    pose proof (Hsame a i it ltac:(by left) Hfind) as Hi.
    destruct (findByName_same_names _ cur _ _ _ Hnames Hfind)
      as (it' & Hfind' & Hi').
    assert (it' = it) as -> by congruence.
    assert (Hstep : deduct cur a = <[i := Item.decrement it]> cur).
    { unfold deduct. rewrite Hfind'.
      by rewrite (proj2 (Z.ltb_lt _ _) (proj1 Hq)). }
    cbn [foldl]. rewrite IH.
    + rewrite Hstep, (totalQuantity_insert _ _ it) by done.
      cbn [length Item.decrement Item.quantity].
      rewrite subtract_one_exact by lia. lia.
    + done.
    + by rewrite deduct_names.
    + intros ing j x Hing Hf. rewrite Hstep, list_lookup_insert_ne.
      * apply (Hsame ing); [by right|done].
      * intros <-.
        apply (firstIndex_distinct inv a ing i).
        -- intros Heq. apply Ha. rewrite Heq. by apply list_elem_of_fmap_2.
        -- unfold firstIndex. by rewrite Hfind.
        -- unfold firstIndex. by rewrite Hf.
    + intros ing Hing. apply Hpos. by right.
Qed.

(** X13: cooking a recipe of the list, on an inventory whose quantities
    are at most [2 ^ 53], takes from the inventory, in total, as many units
    as the recipe has ingredients. *)
Theorem cookClick_total (recipe : Recipe.t) (st : State) :
  recipe ∈ recipes →
  canCook (missingIngredients (inventory st) recipe) = true →
  Forall (λ it, (Item.quantity it ≤ 2 ^ 53)%Z) (inventory st) →
  totalQuantity (inventory (cookClick recipe st))
  = (totalQuantity (inventory st)
     - Z.of_nat (length (Recipe.ingredients recipe)))%Z.
Proof.
  intros Hin Hcook Hbound.
  destruct (cookClick_cookable recipe st Hin Hcook) as [-> Hnd].
  apply (foldl_deduct_total (inventory st)); [done|done| |].
  - intros ing i it _ Hfind. by apply findByName_Some in Hfind as (? & _).
  - intros ing Hing.
    destruct (cookable_first_match _ recipe _ Hcook Hing)
      as (i & it & Hfind & Hq).
    exists i, it. split_and!; [done..|].
    apply findByName_Some in Hfind as (Hi & _).
    by apply (Forall_lookup_1 _ _ _ _ Hbound Hi).
Qed.

Lemma cookClick_total_witness :
  totalQuantity (inventory (cookClick Sample.sandwich Sample.state))
  = (totalQuantity (inventory Sample.state)
     - Z.of_nat (length (Recipe.ingredients Sample.sandwich)))%Z.
Proof.
  apply (cookClick_total Sample.sandwich Sample.state).
  - by_decide.
  - reflexivity.
  - by_decide.
Defined.

(** * Days between two dates *)

(** X14: for dates from the year 100 on, [daysBetween] is the number of the
    local calendar day of the end minus that of the start: the time of day
    plays no part, two instants of one local day are 0 days apart, and
    swapping the dates changes the sign. *)
Theorem daysBetween_local_calendar (LocalTZA : Z → Z) (s e : Z) :
  (100 ≤ JSDate.YearFromTime (JSDate.LocalTime LocalTZA s))%Z →
  (100 ≤ JSDate.YearFromTime (JSDate.LocalTime LocalTZA e))%Z →
  (JSDate.LocalTime LocalTZA s ≤ 8640000000000000)%Z →
  (JSDate.LocalTime LocalTZA e ≤ 8640000000000000)%Z →
  let days := (JSDate.Day (JSDate.LocalTime LocalTZA e)
               - JSDate.Day (JSDate.LocalTime LocalTZA s))%Z in
  daysBetween LocalTZA (Some s) (Some e) = Some days
  ∧ daysBetween LocalTZA (Some e) (Some s) = Some (- days)%Z
  ∧ (JSDate.Day (JSDate.LocalTime LocalTZA e)
     = JSDate.Day (JSDate.LocalTime LocalTZA s) →
     daysBetween LocalTZA (Some s) (Some e) = Some 0%Z).
Proof.
  intros Hys Hye Hs He days.
  rewrite !Calendar.daysBetween_local_days by done. subst days.
  split_and!; [done|f_equal; lia|]. intros ->. f_equal. lia.
Qed.

Lemma daysBetween_local_calendar_witness :
  let days := (JSDate.Day (JSDate.LocalTime Sample.fiveHoursWest Session.may9)
               - JSDate.Day (JSDate.LocalTime Sample.fiveHoursWest
                               Sample.noonMay4))%Z in
  daysBetween Sample.fiveHoursWest (Some Sample.noonMay4) (Some Session.may9)
  = Some days
  ∧ daysBetween Sample.fiveHoursWest (Some Session.may9) (Some Sample.noonMay4)
    = Some (- days)%Z
  ∧ (JSDate.Day (JSDate.LocalTime Sample.fiveHoursWest Session.may9)
     = JSDate.Day (JSDate.LocalTime Sample.fiveHoursWest Sample.noonMay4) →
     daysBetween Sample.fiveHoursWest (Some Sample.noonMay4)
       (Some Session.may9) = Some 0%Z).
Proof.
  apply (daysBetween_local_calendar Sample.fiveHoursWest Sample.noonMay4
           Session.may9); by_decide.
Defined.

Lemma daysBetween_invalid (LocalTZA : Z → Z) (start : option Z) :
  daysBetween LocalTZA start None = None.
Proof.
  unfold daysBetween.
  cbn [JSDate.getFullYear JSDate.getMonth JSDate.getDate JSDate.UTC].
  by destruct (JSDate.UTC _ _ _).
Qed.

(** X15: the list of items that expire soon holds, in the order of the
    inventory, the items whose expiration date is a non-empty string for
    which [daysBetween] gives a number of at most 5, each with that number;
    an item without a date, or with a date that does not parse, is never
    listed. *)
Theorem soon_expiring_listing (LocalTZA : Z → Z) (now : Z)
    (inventory : list Item.t) :
  (∀ entry, entry ∈ getSoonExpiringItems LocalTZA now inventory ↔
     item entry ∈ inventory
     ∧ (∃ s, Item.expirationDate (item entry) = Some s ∧ s ≠ EmptyString
             ∧ daysLeft entry
               = daysBetween LocalTZA (Some now) (JSDate.parse s))
     ∧ ∃ d, daysLeft entry = Some d ∧ (d ≤ 5)%Z)
  ∧ sublist (item <$> getSoonExpiringItems LocalTZA now inventory) inventory
  ∧ (∀ entry, entry ∈ getSoonExpiringItems LocalTZA now inventory →
       ∃ s t, Item.expirationDate (item entry) = Some s
              ∧ JSDate.parse s = Some t).
Proof.
  split_and!.
  - apply getSoonExpiringItems_elem_of.
  - apply getSoonExpiringItems_order.
  - intros entry (_ & (s & Hs & _ & Hd) & (d & Hd' & _))%getSoonExpiringItems_elem_of.
    exists s. destruct (JSDate.parse s) as [t|]; [by exists t|].
    rewrite daysBetween_invalid in Hd. congruence.
Qed.

(** X16: at or east of UTC (by less than a day) the five-day rule holds on
    calendar days: an item whose date is at most 5 days after the local date
    of now is listed with that number of days, and an item whose date is
    later is not listed. *)
Theorem five_day_rule_east (LocalTZA : Z → Z) (now : Z)
    (inventory : list Item.t) (it : Item.t) (s : string) (t : Z) :
  it ∈ inventory →
  Item.expirationDate it = Some s →
  JSDate.parse s = Some t →
  (0 ≤ LocalTZA t < JSDate.msPerDay)%Z →
  (100 ≤ JSDate.YearFromTime (JSDate.LocalTime LocalTZA now))%Z →
  (100 ≤ JSDate.YearFromTime (JSDate.LocalTime LocalTZA t))%Z →
  (JSDate.LocalTime LocalTZA now ≤ 8640000000000000)%Z →
  (JSDate.LocalTime LocalTZA t ≤ 8640000000000000)%Z →
  let days := (JSDate.Day t - JSDate.Day (JSDate.LocalTime LocalTZA now))%Z in
  ((days ≤ 5)%Z →
     {| item := it; daysLeft := Some days |}
       ∈ getSoonExpiringItems LocalTZA now inventory)
  ∧ ((5 < days)%Z →
     ∀ entry, entry ∈ getSoonExpiringItems LocalTZA now inventory →
              item entry ≠ it).
Proof.
  intros Hin Hs Ht Htz Hyn Hyt Hn Hl days.
  pose proof (Calendar.daysBetween_east LocalTZA now s t Ht Htz Hyn Hyt Hn Hl)
    as Hd.
  split.
  - intros Hle. apply getSoonExpiringItems_elem_of. cbn [item daysLeft].
    split_and!; [done| |by exists days].
    exists s. split_and!; [done| |by rewrite Hd].
    intros ->. discriminate Ht.
  - intros Hgt entry
      (_ & (s' & Hs' & _ & Hd') & (d & Hd'' & Hle))%getSoonExpiringItems_elem_of
      Heq.
    rewrite Heq, Hs in Hs'. injection Hs' as <-.
    rewrite Hd in Hd'. rewrite Hd' in Hd''. injection Hd'' as <-.
    subst days. lia.
Qed.

Lemma five_day_rule_east_witness :
  let days := (JSDate.Day Session.may9
               - JSDate.Day (JSDate.LocalTime Session.twoHoursEast
                               Sample.noonMay4))%Z in
  ((days ≤ 5)%Z →
     {| item := Sample.milk "2024-05-09"; daysLeft := Some days |}
       ∈ getSoonExpiringItems Session.twoHoursEast Sample.noonMay4
           [Sample.milk "2024-05-09"])
  ∧ ((5 < days)%Z →
     ∀ entry,
       entry ∈ getSoonExpiringItems Session.twoHoursEast Sample.noonMay4
                 [Sample.milk "2024-05-09"] →
       item entry ≠ Sample.milk "2024-05-09").
Proof.
  apply (five_day_rule_east Session.twoHoursEast Sample.noonMay4
           [Sample.milk "2024-05-09"] (Sample.milk "2024-05-09")
           "2024-05-09" Session.may9).
  - by_decide.
  - reflexivity.
  - vm_compute. reflexivity.
  - vm_compute. split; [discriminate|reflexivity].
  - by_decide.
  - by_decide.
  - by_decide.
  - by_decide.
Defined.

(** * The price look-up *)

Lemma lookupProperty_lower (name : string) :
  ¬ inheritedName name →
  lookupProperty (toLowerCase name) ObjectPrototype = None.
Proof.
  intros Hname. unfold inheritedName in Hname.
  pose proof (toLowerCase_idempotent name) as Hkey.
  set (key := toLowerCase name) in *.
  unfold ObjectPrototype. cbn [lookupProperty].
  repeat match goal with
  | |- context [String.eqb key ?lit] =>
      destruct (String.eqb_spec key lit) as [Heq|?];
      [first [ rewrite Heq in Hkey; discriminate Hkey
             | destruct Hname; auto ]|]
  end.
  reflexivity.
Qed.

(** X17: for a name that does not lowercase to [constructor] or [__proto__], the
    look-up gives nothing when the table has no list for the lowercased
    name, or an empty one, and otherwise an entry of the list that is
    strictly cheaper than every entry before it and at most as dear as
    every entry after it. *)
Theorem cheapest_store_first_minimum (itemName : string) :
  ¬ inheritedName itemName →
  match priceData !! toLowerCase itemName with
  | None | Some [] => getCheapestStoreFor itemName = Normal None
  | Some list =>
      ∃ c before after,
        getCheapestStoreFor itemName = Normal (Some c)
        ∧ list = before ++ c :: after
        ∧ (∀ e, e ∈ before → (price c < price e)%Q)
        ∧ (∀ e, e ∈ after → (price c <= price e)%Q)
  end.
Proof.
  intros Hname. apply getCheapestStoreFor_own. by apply lookupProperty_lower.
Qed.

Lemma cheapest_store_first_minimum_witness :
  match priceData !! toLowerCase "Milk" with
  | None | Some [] => getCheapestStoreFor "Milk" = Normal None
  | Some list =>
      ∃ c before after,
        getCheapestStoreFor "Milk" = Normal (Some c)
        ∧ list = before ++ c :: after
        ∧ (∀ e, e ∈ before → (price c < price e)%Q)
        ∧ (∀ e, e ∈ after → (price c <= price e)%Q)
  end.
Proof.
  apply (cheapest_store_first_minimum "Milk").
  unfold inheritedName. vm_compute. intros [H|H]; discriminate H.
Defined.

(** X18: the look-up does not depend on letter case: names that are equal when
    lowercased get the same answer, and lowercasing the name first, as
    [render] does, changes nothing. *)
Theorem cheapest_store_ignores_case (a b : string) :
  getCheapestStoreFor (toLowerCase a) = getCheapestStoreFor a
  ∧ (toLowerCase a = toLowerCase b →
     getCheapestStoreFor a = getCheapestStoreFor b).
Proof.
  split; [apply getCheapestStoreFor_lower|].
  intros Heq. unfold getCheapestStoreFor. by rewrite Heq.
Qed.

(** * The user and the inventory in storage *)

(** X19: the load of the user never throws: it gives what the stored text
    parses to, when there is a non-empty stored text that parses, and
    [null] otherwise. *)
Theorem loadUser_fallback (storage : gmap string string) :
  (∃ stored v, storage !! "googleUser" = Some stored
               ∧ stored ≠ EmptyString
               ∧ JSON.parse stored = Normal v
               ∧ loadUser storage = Normal v)
  ∨ ((storage !! "googleUser" = None
      ∨ storage !! "googleUser" = Some EmptyString
      ∨ ∃ stored e, storage !! "googleUser" = Some stored
                    ∧ JSON.parse stored = Throw e)
     ∧ loadUser storage = Normal JSON.JNull).
Proof.
  unfold loadUser.
  destruct (storage !! "googleUser") as [stored|]; [|right; by auto].
  destruct stored as [|c stored]; [right; by auto|]. cbn [truthy].
  destruct (JSON.parse (String c stored)) as [v|e] eqn:Hparse.
  - left. exists (String c stored), v. by split_and!.
  - right. split; [|done]. right. right. by exists (String c stored), e.
Qed.

(** X20: the two stored values are independent: no action on the inventory
    changes what the load of the user gives, and signing out, after which
    the load of the user gives [null], changes neither the inventory nor
    what the load of the inventory gives. *)
Theorem user_and_inventory_independent :
  (∀ e st, loadUser (localStorage (step e st)) = loadUser (localStorage st))
  ∧ (∀ app,
       user (signOut app) = JSON.JNull
       ∧ loadUser (localStorage (appState (signOut app))) = Normal JSON.JNull
       ∧ inventory (appState (signOut app)) = inventory (appState app)
       ∧ loadInventory (localStorage (appState (signOut app)))
         = loadInventory (localStorage (appState app))).
Proof.
  split.
  - intros e st. destruct (step_cases e st) as [->|[inv' ->]]; [done|].
    unfold loadUser, saveInventory. cbn [localStorage].
    by rewrite lookup_insert_ne.
  - intros app. unfold signOut, loadUser, loadInventory.
    cbn [appState user inventory localStorage].
    rewrite lookup_delete_eq, lookup_delete_ne by done. done.
Qed.

(** * Names *)

Lemma trimStart_head (s : string) :
  trimStart s = EmptyString
  ∨ ∃ c rest, trimStart s = String c rest ∧ isWhiteSpace c = false.
Proof.
  induction s as [|c s IH]; [by left|]. cbn [trimStart].
  destruct (isWhiteSpace c) eqn:Hc; [done|]. right. by exists c, s.
Qed.

Lemma trimEnd_head (c : ascii) (s : string) :
  isWhiteSpace c = false → ∃ rest, trimEnd (String c s) = String c rest.
Proof.
  intros Hc. cbn [trimEnd]. rewrite Hc.
  destruct (trimEnd s) as [|d t]; by eexists.
Qed.

Lemma trimEnd_last (s : string) :
  trimEnd s = EmptyString
  ∨ ∃ front c, trimEnd s = front +:+ String c EmptyString
               ∧ isWhiteSpace c = false.
Proof.
  induction s as [|c s IH]; [by left|]. cbn [trimEnd].
  destruct (trimEnd s) as [|d t].
  - destruct (isWhiteSpace c) eqn:Hc; [by left|].
    right. by exists EmptyString, c.
  - right. destruct IH as [IH|(front & e & IH & He)]; [discriminate IH|].
    exists (String c front), e. split; [|done].
    change (String c front +:+ String e EmptyString)
      with (String c (front +:+ String e EmptyString)).
    by rewrite IH.
Qed.

Lemma trim_trimmed (s : string) :
  truthy (trim s) = true → trimmedName (trim s).
Proof.
  unfold trim. intros Hne. split.
  - destruct (trimStart_head s) as [Hs|(c & rest & Hs & Hc)].
    + rewrite Hs in Hne. discriminate Hne.
    + rewrite Hs. destruct (trimEnd_head c rest Hc) as [rest' ->].
      by exists c, rest'.
  - destruct (trimEnd_last (trimStart s)) as [He|Hlast]; [|done].
    rewrite He in Hne. discriminate Hne.
Qed.

Lemma trimmedNames_decrement (inv : list Item.t) (i : nat) (it : Item.t) :
  inv !! i = Some it → trimmedNames inv →
  trimmedNames (<[i := Item.decrement it]> inv).
Proof.
  intros Hi Hinv. apply Forall_insert; [done|].
  by apply (Forall_lookup_1 _ _ _ _ Hinv Hi).
Qed.

Lemma trimmedNames_step (e : event) (st : State) :
  trimmedNames (inventory st) → trimmedNames (inventory (step e st)).
Proof.
  intros Hinv. destruct e as [form newId|id|id|recipe]; cbn [step].
  - unfold addSubmit. destruct (truthy (trim (formName form))) eqn:Hname;
      cbn [negb]; [|done].
    cbn [saveInventory inventory].
    apply Forall_app. split; [done|]. apply Forall_singleton.
    by apply trim_trimmed.
  - destruct (useClick_inventory id st) as [->|(i & it & Hf & _ & ->)]; [done|].
    apply trimmedNames_decrement; [|done].
    by apply list_find_Some in Hf as (? & _).
  - cbn [deleteClick saveInventory inventory].
    unfold trimmedNames in *. rewrite Forall_forall in *.
    intros it [_ Hin]%list_elem_of_filter. by apply Hinv.
  - destruct (cookClick_inventory recipe st) as [->|[r ->]]; [done|].
    apply (foldl_deduct_preserves trimmedNames); [|done].
    intros inv ing Hnn.
    destruct (deduct_cases inv ing) as [->|(i & it & Hf & _ & ->)]; [done|].
    apply trimmedNames_decrement; [|done].
    by apply findByName_Some in Hf as (? & _).
Qed.

(** X21: the add form stores names without white space at either end, and no
    action changes a name: in an inventory whose names all begin and end
    with a character that is not white space, every sequence of actions
    keeps that. *)
Theorem run_trimmed_names (events : list event) (st : State) :
  trimmedNames (inventory st) → trimmedNames (inventory (run events st)).
Proof.
  revert st. induction events as [|e events IH]; intros st Hinv; [done|].
  cbn [run foldl]. apply IH. by apply trimmedNames_step.
Qed.

Lemma run_trimmed_names_witness :
  trimmedNames (inventory (run Session.events Sample.state)).
Proof.
  apply (run_trimmed_names Session.events Sample.state).
  repeat apply Forall_cons_2; try apply Forall_nil_2;
    match goal with
    | |- trimmedName ?name =>
        change (trimmedName (trim name)); apply trim_trimmed; reflexivity
    end.
Defined.
